(** * Inertia Physics Lab: the simulation core of [InertiaGame.tsx]

    The component keeps one [GameState] bundle and updates it through
    [setGameState] updaters.  This development embeds the physics stepper
    ([updatePhysics]), the launch gesture handlers, [resetGame] and
    [nextLevel] as functions on that bundle, and the React plumbing around
    them as a small transition system ([World], [Event], [step]).

    JavaScript numbers are kept behind the interface [Number], so that every
    definition is written once, with the operators of the source.  Two
    instances are given: IEEE 754 binary64 ([Binary64], the arithmetic the
    browser runs) and exact rationals ([Exact], the same operators without
    rounding).  What a frame adds and multiplies is stated for every
    arithmetic; [Exact] carries the comparisons with the walls, the launch
    and the score. *)

From Stdlib Require Import QArith Qabs Qpower Qround Floats List ZArith Lia Lqa Bool
  String.
Import ListNotations.

Set Implicit Arguments.
Close Scope Q_scope.
Open Scope nat_scope.

(* ================================================================== *)
(** ** Numbers *)

(** The operations [InertiaGame.tsx] performs on values of type [number]. *)
Class Number : Type := {
  num : Type;
  lit : Q -> num;                  (* a numeric literal of the source *)
  add : num -> num -> num;         (* a + b *)
  sub : num -> num -> num;         (* a - b *)
  mul : num -> num -> num;         (* a * b *)
  neg : num -> num;                (* -a *)
  leb : num -> num -> bool;        (* a <= b *)
  ltb : num -> num -> bool;        (* a < b *)
  Math_abs : num -> num;
  Math_max : num -> num -> num;
  Math_min : num -> num -> num
}.

Declare Scope js_scope.
Delimit Scope js_scope with js.
Notation "a + b" := (add a b) : js_scope.
Notation "a - b" := (sub a b) : js_scope.
Notation "a * b" := (mul a b) : js_scope.
Notation "- a" := (neg a) : js_scope.
Notation "a <=? b" := (leb a b) (at level 70, no associativity) : js_scope.
Notation "a <? b" := (ltb a b) (at level 70, no associativity) : js_scope.
Notation "a >=? b" := (leb b a) (at level 70, no associativity) : js_scope.
Notation "a >? b" := (ltb b a) (at level 70, no associativity) : js_scope.

(** *** Exact rationals *)

(** The operators without rounding, overflow or NaN.  A product of the
    browser is the rounded one: a closed form such as [v (1 - f)^n] holds
    at this instance and not at [Binary64]. *)

Definition Qltb (a b : Q) : bool := negb (Qle_bool b a).
Definition Qmax (a b : Q) : Q := if Qle_bool a b then b else a.
Definition Qmin (a b : Q) : Q := if Qle_bool a b then a else b.

Definition Exact : Number := {|
  num := Q;
  lit := fun q => q;
  add := Qplus;
  sub := Qminus;
  mul := Qmult;
  neg := Qopp;
  leb := Qle_bool;
  ltb := Qltb;
  Math_abs := Qabs;
  Math_max := Qmax;
  Math_min := Qmin
|}.

(** *** IEEE 754 binary64 *)

Module B64.

Definition of_Z (z : Z) : float :=
  let m := PrimFloat.of_uint63 (Uint63.of_Z (Z.abs z)) in
  if (z <? 0)%Z then PrimFloat.opp m else m.

(** A decimal literal denotes the double nearest to its value.  Numerator
    and denominator of the literals of the source are small integers,
    which are doubles, and the division is correctly rounded. *)
Definition lit (q : Q) : float :=
  PrimFloat.div (of_Z (Qnum q)) (of_Z (Zpos (Qden q))).

Definition is_neg_zero (a : float) : bool :=
  PrimFloat.is_zero a && PrimFloat.get_sign a.

(** [Math.max] and [Math.min] of ECMAScript: NaN is contagious and
    [-0] is smaller than [+0]. *)
Definition max (a b : float) : float :=
  if PrimFloat.is_nan a || PrimFloat.is_nan b then PrimFloat.nan
  else if PrimFloat.ltb a b then b
  else if PrimFloat.ltb b a then a
  else if is_neg_zero a then b else a.

Definition min (a b : float) : float :=
  if PrimFloat.is_nan a || PrimFloat.is_nan b then PrimFloat.nan
  else if PrimFloat.ltb a b then a
  else if PrimFloat.ltb b a then b
  else if is_neg_zero a then a else b.

End B64.

Definition Binary64 : Number := {|
  num := float;
  lit := B64.lit;
  add := PrimFloat.add;
  sub := PrimFloat.sub;
  mul := PrimFloat.mul;
  neg := PrimFloat.opp;
  leb := PrimFloat.leb;
  ltb := PrimFloat.ltb;
  Math_abs := PrimFloat.abs;
  Math_max := B64.max;
  Math_min := B64.min
|}.

(** [a.slice(-k)] for [k > 0]: the last [k] elements of [a]. *)
Definition slice_last {A : Type} (k : nat) (a : list A) : list A :=
  skipn (List.length a - k) a.

(* ================================================================== *)
(** ** Data model *)

Section Model.

Context {N : Number}.
Local Open Scope js_scope.

Record Point : Type := mkPoint { px : num; py : num }.

(** [interface GameObject] *)
Record GameObject : Type := mkObject {
  id : string;
  x : num;
  y : num;
  vx : num;
  vy : num;
  mass : num;
  color : string;
  trail : list Point;
  size : num
}.

(** [interface GameState].  [level] indexes [LEVELS]; it starts at 0 and is
    only ever assigned [Math.min(level + 1, LEVELS.length - 1)], so it is a
    natural number. *)
Record GameState : Type := mkState {
  objects : list GameObject;
  friction : num;
  gravity : bool;
  isLaunching : bool;
  launchStart : option Point;
  currentMouse : option Point;
  level : nat;
  score : num;
  isPlaying : bool
}.

(** The part of the [<canvas>] element the stepper reads. *)
Record Canvas : Type := mkCanvas { width : num; height : num }.

Record Level : Type := mkLevel {
  name : string;
  description : string;
  lfriction : num;
  lgravity : bool;
  target : string
}.

Definition LEVELS : list Level := [
  mkLevel "Frictionless Space"
          "Launch objects in space with no friction. Notice how they keep moving!"
          (lit 0) false
          "Launch an object and observe continuous motion";
  mkLevel "Air Resistance"
          "Add friction to see how external forces slow down objects"
          (lit 0.02) false
          "Compare motion with and without friction";
  mkLevel "Gravity Field"
          "Add gravity to see how forces change object motion"
          (lit 0.01) true
          "Launch objects and watch gravity affect their path";
  mkLevel "Real World"
          "Full physics with friction and gravity like on Earth"
          (lit 0.03) true
          "Master inertia in realistic conditions"
].

(** The argument of [useState]. *)
Definition initialState : GameState := {|
  objects := [];
  friction := lit 0;
  gravity := false;
  isLaunching := false;
  launchStart := None;
  currentMouse := None;
  level := 0;
  score := lit 0;
  isPlaying := false
|}.

(** *** Field assignments [newObj.f = v] *)

Definition set_x (v : num) (o : GameObject) : GameObject :=
  mkObject (id o) v (y o) (vx o) (vy o) (mass o) (color o) (trail o) (size o).
Definition set_y (v : num) (o : GameObject) : GameObject :=
  mkObject (id o) (x o) v (vx o) (vy o) (mass o) (color o) (trail o) (size o).
Definition set_vx (v : num) (o : GameObject) : GameObject :=
  mkObject (id o) (x o) (y o) v (vy o) (mass o) (color o) (trail o) (size o).
Definition set_vy (v : num) (o : GameObject) : GameObject :=
  mkObject (id o) (x o) (y o) (vx o) v (mass o) (color o) (trail o) (size o).
Definition set_trail (t : list Point) (o : GameObject) : GameObject :=
  mkObject (id o) (x o) (y o) (vx o) (vy o) (mass o) (color o) t (size o).

(** [{ ...s, objects: os }] *)
Definition set_objects (os : list GameObject) (s : GameState) : GameState :=
  mkState os (friction s) (gravity s) (isLaunching s) (launchStart s)
          (currentMouse s) (level s) (score s) (isPlaying s).

(* ================================================================ *)
(** ** The physics stepper *)

(** The callback of [prevState.objects.map] in [updatePhysics]; the
    statements of the source in their order, each rebinding [newObj]. *)
Definition updateObject (canvas : option Canvas) (prevState : GameState)
           (obj : GameObject) : GameObject :=
  let newObj := obj in
  (* Apply gravity *)
  let newObj :=
    if gravity prevState then set_vy (vy newObj + lit 0.3) newObj
    else newObj in
  (* Apply friction *)
  let newObj :=
    if friction prevState >? lit 0 then
      let newObj := set_vx (vx newObj * (lit 1 - friction prevState)) newObj in
      set_vy (vy newObj * (lit 1 - friction prevState)) newObj
    else newObj in
  (* Update position *)
  let newObj := set_x (x newObj + vx newObj) newObj in
  let newObj := set_y (y newObj + vy newObj) newObj in
  (* Add to trail *)
  let newObj :=
    set_trail (trail newObj ++ [mkPoint (x newObj) (y newObj)]) newObj in
  let newObj :=
    if (50 <? List.length (trail newObj))%nat
    then set_trail (slice_last 50 (trail newObj)) newObj
    else newObj in
  (* Bounce off walls *)
  match canvas with
  | Some canvas =>
      let newObj :=
        if (x newObj <=? size newObj)
           || (x newObj >=? width canvas - size newObj)
        then
          let newObj := set_vx (vx newObj * - lit 0.8) newObj in
          set_x (Math_max (size newObj)
                          (Math_min (width canvas - size newObj) (x newObj)))
                newObj
        else newObj in
      let newObj :=
        if (y newObj <=? size newObj)
           || (y newObj >=? height canvas - size newObj)
        then
          let newObj := set_vy (vy newObj * - lit 0.8) newObj in
          set_y (Math_max (size newObj)
                          (Math_min (height canvas - size newObj) (y newObj)))
                newObj
        else newObj in
      newObj
  | None => newObj
  end.

(** The updater passed to [setGameState] by [updatePhysics];
    [canvas] is [canvasRef.current]. *)
Definition updatePhysics (canvas : option Canvas) (prevState : GameState)
  : GameState :=
  let newObjects := map (updateObject canvas prevState) (objects prevState) in
  set_objects newObjects prevState.

(* ================================================================ *)
(** ** Launching, resetting, changing level *)

(** The two draws of [Math.random] in [createObject]: the id string
    [Math.random().toString(36).substr(2, 9)] and the palette index
    [Math.floor(Math.random() * colors.length)]. *)
Record Random : Type := mkRandom { rnd_id : string; rnd_color : nat }.

Definition colors : list string :=
  ["#ff6b6b"; "#4ecdc4"; "#45b7d1"; "#96ceb4"; "#ffeaa7"; "#dda0dd"]%string.

Definition createObject (rnd : Random) (x y vx vy : num) : GameObject := {|
  id := rnd_id rnd;
  x := x;
  y := y;
  vx := vx;
  vy := vy;
  mass := lit 1;
  color := nth (rnd_color rnd) colors ""%string;
  trail := [];
  size := lit 20
|}.

(** The handlers below read two states: [gameState], the state of the
    render their closure was created in, and [prev], the state the updater
    passed to [setGameState] receives.  A handler that returns before
    calling [setGameState] leaves [prev] as it is. *)

(** [p] is [(e.clientX - rect.left, e.clientY - rect.top)]. *)
Definition handleCanvasMouseDown (canvas : option Canvas) (p : Point)
           (prev : GameState) : GameState :=
  match canvas with
  | None => prev
  | Some _ =>
      mkState (objects prev) (friction prev) (gravity prev)
              true (Some p) (Some p)
              (level prev) (score prev) true
  end.

Definition handleCanvasMouseMove (canvas : option Canvas) (p : Point)
           (gameState prev : GameState) : GameState :=
  if negb (isLaunching gameState) then prev
  else match canvas with
       | None => prev
       | Some _ =>
           mkState (objects prev) (friction prev) (gravity prev)
                   (isLaunching prev) (launchStart prev) (Some p)
                   (level prev) (score prev) (isPlaying prev)
       end.

Definition handleCanvasMouseUp (rnd : Random) (gameState prev : GameState)
  : GameState :=
  match isLaunching gameState, launchStart gameState, currentMouse gameState with
  | true, Some start, Some mouse =>
      let vx := (px mouse - px start) * lit 0.2 in
      let vy := (py mouse - py start) * lit 0.2 in
      let newObject := createObject rnd (px start) (py start) vx vy in
      mkState (objects prev ++ [newObject]) (friction prev) (gravity prev)
              false None None
              (level prev) (score prev + Math_abs vx + Math_abs vy)
              (isPlaying prev)
  | _, _, _ => prev
  end.

Definition resetGame (prev : GameState) : GameState :=
  mkState [] (friction prev) (gravity prev)
          false None None
          (level prev) (score prev) (isPlaying prev).

(** [LEVELS[newLevel]] is [undefined] outside the table and reading a
    property of it throws: [None]. *)
Definition nextLevel (gameState prev : GameState) : option GameState :=
  let newLevel := Nat.min (level gameState + 1) (List.length LEVELS - 1) in
  match nth_error LEVELS newLevel with
  | Some l =>
      Some (mkState [] (lfriction l) (lgravity l)
                    (isLaunching prev) (launchStart prev) (currentMouse prev)
                    newLevel (score prev) (isPlaying prev))
  | None => None
  end.

(** The [onChange] handlers of the friction slider and the gravity
    checkbox. *)
Definition changeFriction (v : num) (prev : GameState) : GameState :=
  mkState (objects prev) v (gravity prev)
          (isLaunching prev) (launchStart prev) (currentMouse prev)
          (level prev) (score prev) (isPlaying prev).

Definition changeGravity (b : bool) (prev : GameState) : GameState :=
  mkState (objects prev) (friction prev) b
          (isLaunching prev) (launchStart prev) (currentMouse prev)
          (level prev) (score prev) (isPlaying prev).

(* ================================================================ *)
(** ** The component as a transition system *)

(** [current] is the state React holds, [rendered] the state of the last
    render (the one the handlers' closures see), [canvasRef] is
    [canvasRef.current]. *)
Record World : Type := mkWorld {
  rendered : GameState;
  current : GameState;
  canvasRef : option Canvas
}.

Inductive Event : Type :=
| Resize (c : Canvas)          (* the canvas is mounted or resized *)
| Render                       (* React re-renders the component *)
| Frame                        (* one call of [animate] *)
| MouseDown (p : Point)
| MouseMove (p : Point)
| MouseUp (rnd : Random)
| ResetLab
| NextLevel
| FrictionSlider (v : num)
| GravityCheckbox (b : bool).

Definition initialWorld : World := mkWorld initialState initialState None.

Definition set_current (s : GameState) (w : World) : World :=
  mkWorld (rendered w) s (canvasRef w).

Definition step (w : World) (e : Event) : World :=
  match e with
  | Resize c => mkWorld (rendered w) (current w) (Some c)
  | Render => mkWorld (current w) (current w) (canvasRef w)
  | Frame =>
      if isPlaying (rendered w)
      then set_current (updatePhysics (canvasRef w) (current w)) w
      else w
  | MouseDown p => set_current (handleCanvasMouseDown (canvasRef w) p (current w)) w
  | MouseMove p =>
      set_current (handleCanvasMouseMove (canvasRef w) p (rendered w) (current w)) w
  | MouseUp rnd => set_current (handleCanvasMouseUp rnd (rendered w) (current w)) w
  | ResetLab => set_current (resetGame (current w)) w
  | NextLevel =>
      match nextLevel (rendered w) (current w) with
      | Some s => set_current s w
      | None => w
      end
  | FrictionSlider v => set_current (changeFriction v (current w)) w
  | GravityCheckbox b => set_current (changeGravity b (current w)) w
  end.

Definition run (w : World) (es : list Event) : World := fold_left step es w.

Definition Reachable (w : World) : Prop := exists es, run initialWorld es = w.

(* ================================================================ *)
(** ** The stages of a physics step, as the specification lists them *)

Definition applyGravity (g : bool) (o : GameObject) : GameObject :=
  if g then set_vy (vy o + lit 0.3) o else o.

Definition applyFriction (f : num) (o : GameObject) : GameObject :=
  if f >? lit 0
  then set_vy (vy o * (lit 1 - f)) (set_vx (vx o * (lit 1 - f)) o)
  else o.

Definition integrate (o : GameObject) : GameObject :=
  set_y (y o + vy o) (set_x (x o + vx o) o).

Definition appendTrail (o : GameObject) : GameObject :=
  let t := trail o ++ [mkPoint (x o) (y o)] in
  set_trail (if (50 <? List.length t)%nat then slice_last 50 t else t) o.

Definition clamp (lo hi v : num) : num := Math_max lo (Math_min hi v).

Definition touchesX (c : Canvas) (o : GameObject) : bool :=
  (x o <=? size o) || (x o >=? width c - size o).

Definition touchesY (c : Canvas) (o : GameObject) : bool :=
  (y o <=? size o) || (y o >=? height c - size o).

Definition bounceX (c : Canvas) (o : GameObject) : GameObject :=
  if touchesX c o
  then set_x (clamp (size o) (width c - size o) (x o))
             (set_vx (vx o * - lit 0.8) o)
  else o.

Definition bounceY (c : Canvas) (o : GameObject) : GameObject :=
  if touchesY c o
  then set_y (clamp (size o) (height c - size o) (y o))
             (set_vy (vy o * - lit 0.8) o)
  else o.

Definition wallCollision (canvas : option Canvas) (o : GameObject)
  : GameObject :=
  match canvas with
  | Some c => bounceY c (bounceX c o)
  | None => o
  end.

(** Stages (1) to (3): the object as it is when the walls are checked,
    up to its trail. *)
Definition moved (s : GameState) (o : GameObject) : GameObject :=
  integrate (applyFriction (friction s) (applyGravity (gravity s) o)).

(** Whether the step of [o] under [s] meets a wall of the canvas. *)
Definition wallContact (canvas : option Canvas) (s : GameState)
           (o : GameObject) : bool :=
  match canvas with
  | Some c => touchesX c (moved s o) || touchesY c (moved s o)
  | None => false
  end.

(** The position of [o]: [{ x: o.x, y: o.y }]. *)
Definition position (o : GameObject) : Point := mkPoint (x o) (y o).

(** What a frame reads besides the object: [canvasRef.current] and the
    state whose [friction] and [gravity] apply.  Both may change from one
    frame to the next. *)
Definition Env : Type := (option Canvas * GameState)%type.

(** The object after the frames [es], first frame first. *)
Fixpoint track (es : list Env) (o : GameObject) : GameObject :=
  match es with
  | [] => o
  | e :: es' => track es' (updateObject (fst e) (snd e) o)
  end.

(** The positions the frames [es] take [o] to, one per frame, oldest
    first: where the integration of that frame puts the object. *)
Fixpoint recorded (es : list Env) (o : GameObject) : list Point :=
  match es with
  | [] => []
  | e :: es' =>
      position (moved (snd e) o) :: recorded es' (updateObject (fst e) (snd e) o)
  end.

(** The object after [n] frames under unchanged canvas and parameters. *)
Definition frames (canvas : option Canvas) (s : GameState) (n : nat)
           (o : GameObject) : GameObject :=
  track (repeat (canvas, s) n) o.

(** [o] was created by a launch and moved by frames since. *)
Definition launched (o : GameObject) : Prop :=
  exists rnd x0 y0 vx0 vy0 es, o = track es (createObject rnd x0 y0 vx0 vy0).

(** *** Examples *)

(** A canvas of 800 by 600, the largest [resizeCanvas] sets. *)
Definition stage : Canvas := mkCanvas (lit 800) (lit 600).

(** An object one pixel from the place where it meets the right wall of
    [stage], with velocity (+50, 0). *)
Definition rightWallObject : GameObject :=
  createObject (mkRandom "k3x9q2m1a" 0) (lit 779) (lit 300) (lit 50) (lit 0).

(** An object in the middle of [stage], with velocity (+20, 0). *)
Definition midObject : GameObject :=
  createObject (mkRandom "k3x9q2m1a" 0) (lit 100) (lit 300) (lit 20) (lit 0).

Definition someRandom : Random := mkRandom "k3x9q2m1a" 0.

(** A gesture from [start] to [mouse], each handler seeing the state of
    the preceding event. *)
Definition gesture (start mouse : Point) : list Event :=
  [MouseDown start; Render; MouseMove mouse; Render; MouseUp someRandom; Render].

(** A launch from the corner (5, 5) of [stage]. *)
Definition cornerTrace : list Event :=
  Resize stage :: gesture (mkPoint (lit 5) (lit 5)) (mkPoint (lit 105) (lit 5)).

(** A launch with drag vector (100, 0), followed by ten frames. *)
Definition dragTrace : list Event :=
  Resize stage
  :: gesture (mkPoint (lit 100) (lit 300)) (mkPoint (lit 200) (lit 300))
  ++ repeat Frame 10.

(** With gravity on and friction 0, a launch downwards 100 above the
    floor of [stage], followed by three frames. *)
Definition fallTrace : list Event :=
  Resize stage :: GravityCheckbox true
  :: gesture (mkPoint (lit 400) (lit 500)) (mkPoint (lit 400) (lit 600))
  ++ repeat Frame 3.

(** A state in which a gesture from (100, 300) to (200, 300) is in
    progress. *)
Definition dragging : GameState :=
  mkState [] (lit 0) false true
          (Some (mkPoint (lit 100) (lit 300)))
          (Some (mkPoint (lit 200) (lit 300))) 0 (lit 0) true.

(** [o] as it would be with another mass. *)
Definition set_mass (m : num) (o : GameObject) : GameObject :=
  mkObject (id o) (x o) (y o) (vx o) (vy o) m (color o) (trail o) (size o).

End Model.

(** The data model at the two arithmetics. *)
Abbreviation QObject := (@GameObject Exact).
Abbreviation QState := (@GameState Exact).
Abbreviation QCanvas := (@Canvas Exact).

Abbreviation FObject := (@GameObject Binary64).
Abbreviation FState := (@GameState Binary64).
Abbreviation FCanvas := (@Canvas Binary64).

(** *** Notions stated in exact arithmetic *)

(** [o] lies within [[size, dimension - size]] on both axes of [c]. *)
Definition inside (c : @Canvas Exact) (o : @GameObject Exact) : Prop :=
  (size o <= x o /\ x o <= width c - size o)%Q
  /\ (size o <= y o /\ y o <= height c - size o)%Q.

(* ================================================================== *)
(** ** The rest of the component *)

Section View.

Context {N : Number}.
Local Open Scope js_scope.

(** What [render] decides before it draws.  The trail of [obj] is stroked
    when [obj.trail.length > 1]. *)
Definition drawsTrail (obj : GameObject) : bool :=
  (1 <? List.length (trail obj))%nat.

(** The velocity vector of [obj] is drawn when
    [Math.abs(obj.vx) > 0.1 || Math.abs(obj.vy) > 0.1]. *)
Definition drawsVelocity (obj : GameObject) : bool :=
  (Math_abs (vx obj) >? lit 0.1) || (Math_abs (vy obj) >? lit 0.1).

(** The dashed launch vector and the power readout are drawn when
    [gameState.isLaunching && gameState.launchStart && gameState.currentMouse]. *)
Definition drawsLaunchVector (gameState : GameState) : bool :=
  isLaunching gameState
  && match launchStart gameState with Some _ => true | None => false end
  && match currentMouse gameState with Some _ => true | None => false end.

Definition isMouseDown (e : Event) : bool :=
  match e with MouseDown _ => true | _ => false end.

Definition isMouseUp (e : Event) : bool :=
  match e with MouseUp _ => true | _ => false end.

Definition isNextLevel (e : Event) : bool :=
  match e with NextLevel => true | _ => false end.

Definition clearsObjects (e : Event) : bool :=
  match e with ResetLab | NextLevel => true | _ => false end.

(** No event of [evs] empties the collection. *)
Definition keepsObjects (evs : list Event) : bool :=
  forallb (fun e => negb (clearsObjects e)) evs.

(** What the event [e] makes [updatePhysics] read in the world [w]:
    [canvasRef.current] and the state, when [e] is a call of [animate] and
    the loop is playing; nothing otherwise. *)
Definition frameEnv (w : World) (e : Event) : list Env :=
  match e with
  | Frame => if isPlaying (rendered w) then [(canvasRef w, current w)] else []
  | _ => []
  end.

(** The physics steps the events [evs] perform from the world [w] on,
    first step first. *)
Fixpoint frameEnvs (w : World) (evs : list Event) : list Env :=
  match evs with
  | [] => []
  | e :: evs' => frameEnv w e ++ frameEnvs (step w e) evs'
  end.


End View.

Section Invariants.

Context {N : Number}.

(** A state in which nothing was pressed or launched yet. *)
Definition untouched (s : GameState) : Prop :=
  objects s = [] /\ isLaunching s = false /\ isPlaying s = false
  /\ score s = lit 0.

(** The level of the state is the level on screen or the next one. *)
Definition levels_ok (w : World) : Prop :=
  level (rendered w) <= level (current w)
  /\ level (current w) <= Nat.min (level (rendered w) + 1) 3.

(** What holds of the flags in every reachable world. *)
Definition flags_ok w : Prop :=
  (isPlaying (rendered w) = true -> isPlaying (current w) = true)
  /\ (isLaunching (rendered w) = true -> isPlaying (current w) = true)
  /\ (isLaunching (current w) = true -> isPlaying (current w) = true)
  /\ (objects (current w) <> [] -> isPlaying (current w) = true)
  /\ (isPlaying (current w) = true -> canvasRef w <> None).

End Invariants.

Section MoreExamples.

Context {N : Number}.

(** The initial state with the friction slider at 0.02, with the gravity
    box checked, and with both. *)
Definition airState : GameState := changeFriction (lit 0.02) initialState.
Definition gravityState : GameState := changeGravity true initialState.
Definition earthState : GameState := changeGravity true airState.

(** Objects in the middle of [stage]: one at rest, one slow. *)
Definition restingObject : GameObject :=
  createObject someRandom (lit 100) (lit 300) (lit 0) (lit 0).
Definition slowObject : GameObject :=
  createObject someRandom (lit 100) (lit 300) (lit 0.5) (lit 0).

(** Events none of which is a press. *)
Definition idleTrace : list Event :=
  [Resize stage; Frame; MouseMove (mkPoint (lit 100) (lit 300)); Render;
   MouseUp someRandom; FrictionSlider (lit 0.05); NextLevel; ResetLab; Frame].

End MoreExamples.

(** Worlds in exact arithmetic: the canvas mounted at 800 by 600; after
    the launch of [dragTrace] and its ten frames; after the launch of
    [cornerTrace]. *)
Abbreviation mountedWorld := (run (@initialWorld Exact) [Resize stage]).
Abbreviation draggedWorld := (run (@initialWorld Exact) dragTrace).
Abbreviation cornerWorld := (run (@initialWorld Exact) cornerTrace).

(** Doubles: an object whose position is NaN, and one with an infinite
    velocity. *)
Definition nanObject : FObject :=
  createObject (N:=Binary64) someRandom PrimFloat.nan 300%float 0%float 0%float.
Definition infiniteObject : FObject :=
  createObject (N:=Binary64) someRandom 400%float 300%float
               PrimFloat.infinity 0%float.

(** A closed comparison of rationals, decided by evaluation. *)
Ltac qdecide := vm_compute; first [reflexivity | discriminate].

(** Case analysis on a condition that contains no other conditional. *)
Ltac case_innermost_if :=
  match goal with
  | |- context [if ?b then _ else _] =>
      lazymatch b with
      | context [if _ then _ else _] => fail
      | _ => destruct b; cbn -[Nat.ltb slice_last]
      end
  end.

(* ================================================================== *)
(** ** Lists: [slice(-k)] *)

Section SliceLast.

Variable A : Type.
Implicit Types (a b : list A) (k : nat).

Lemma slice_last_length k a :
  List.length (slice_last k a) = Nat.min k (List.length a).
Proof. unfold slice_last. rewrite length_skipn. lia. Qed.

Lemma slice_last_short k a :
  List.length a <= k -> slice_last k a = a.
Proof.
  intros H. unfold slice_last.
  replace (List.length a - k) with 0 by lia. reflexivity.
Qed.

Lemma slice_last_app k a b :
  slice_last k (slice_last k a ++ b) = slice_last k (a ++ b).
Proof.
  unfold slice_last.
  rewrite !length_app, length_skipn, !skipn_app, skipn_skipn, length_skipn.
  f_equal; f_equal; lia.
Qed.

Lemma slice_last_suffix k a b :
  List.length b = k -> slice_last k (a ++ b) = b.
Proof.
  intros H. unfold slice_last.
  rewrite length_app, skipn_app.
  replace (List.length a + List.length b - k) with (List.length a) by lia.
  rewrite skipn_all, Nat.sub_diag. reflexivity.
Qed.

End SliceLast.

(* ================================================================== *)
(** ** The stepper, for every arithmetic *)

Section Stepper.

Context {N : Number}.
Local Open Scope js_scope.

Implicit Types (o : GameObject) (s : GameState) (c : Canvas).

(** [updateObject] runs the five stages in the order of the
    specification. *)
Lemma updateObject_stages canvas s o :
  updateObject canvas s o = wallCollision canvas (appendTrail (moved s o)).
Proof.
  unfold moved, applyFriction, applyGravity.
  cbv beta delta [updateObject].
  destruct (gravity s), (friction s >? lit 0);
    unfold wallCollision, appendTrail, integrate, bounceX, bounceY,
      touchesX, touchesY, clamp;
    cbn -[Nat.ltb slice_last];
    match goal with
    | |- context [(50 <? ?n)%nat] => destruct (50 <? n)%nat
    end; cbn -[slice_last];
    destruct canvas as [c|]; cbn -[slice_last]; try reflexivity;
    repeat case_innermost_if; reflexivity.
Qed.

Lemma appendTrail_trail o :
  trail (appendTrail o) = slice_last 50 (trail o ++ [position o]).
Proof.
  unfold appendTrail, position. cbn -[Nat.ltb slice_last].
  match goal with |- context [(50 <? ?n)%nat] => destruct (50 <? n)%nat eqn:E end;
    [reflexivity|].
  apply Nat.ltb_ge in E. symmetry. now apply slice_last_short.
Qed.

Lemma wallCollision_trail canvas o :
  trail (wallCollision canvas o) = trail o.
Proof.
  destruct canvas as [c|]; cbn; [|reflexivity].
  unfold bounceY, bounceX.
  destruct (touchesX c o); destruct (touchesY c _); reflexivity.
Qed.

Lemma updateObject_trail canvas s o :
  trail (updateObject canvas s o)
  = slice_last 50 (trail o ++ [position (moved s o)]).
Proof.
  rewrite updateObject_stages, wallCollision_trail, appendTrail_trail.
  unfold moved, integrate, applyFriction, applyGravity.
  destruct (gravity s), (friction s >? lit 0); reflexivity.
Qed.

Lemma updateObject_trail_snoc canvas s o :
  exists t, trail (updateObject canvas s o) = t ++ [position (moved s o)].
Proof.
  rewrite updateObject_trail. unfold slice_last.
  rewrite length_app, skipn_app. cbn [List.length].
  replace (List.length (trail o) + 1 - 50 - List.length (trail o))%nat with 0 by lia.
  eexists. reflexivity.
Qed.

Lemma updateObject_trail_length canvas s o :
  List.length (trail (updateObject canvas s o)) <= 50.
Proof. rewrite updateObject_trail, slice_last_length. lia. Qed.

Lemma wallCollision_set_mass canvas o m :
  wallCollision canvas (set_mass m o) = set_mass m (wallCollision canvas o).
Proof.
  destruct canvas as [c|]; [|reflexivity]. destruct o.
  unfold wallCollision, bounceY, bounceX, touchesX, touchesY, clamp, set_mass.
  cbn. repeat case_innermost_if; reflexivity.
Qed.

Lemma updateObject_set_mass canvas s o m :
  updateObject canvas s (set_mass m o) = set_mass m (updateObject canvas s o).
Proof.
  rewrite !updateObject_stages, <- wallCollision_set_mass. f_equal.
  unfold moved, applyFriction, applyGravity.
  destruct (gravity s), (friction s >? lit 0); reflexivity.
Qed.

(** *** The wall stage, axis by axis *)

Lemma moved_size s o : size (moved s o) = size o.
Proof.
  unfold moved, integrate, applyFriction, applyGravity.
  destruct (gravity s), (friction s >? lit 0); reflexivity.
Qed.

Lemma updateObject_size canvas s o : size (updateObject canvas s o) = size o.
Proof.
  rewrite updateObject_stages, <- (moved_size s o).
  generalize (moved s o) as m. intros m.
  destruct canvas as [c|]; cbn -[Nat.ltb slice_last]; [|reflexivity].
  unfold bounceY, bounceX.
  repeat case_innermost_if; reflexivity.
Qed.

Lemma updateObject_x_axis c s o :
  vx (updateObject (Some c) s o)
  = (if touchesX c (moved s o)
     then vx (moved s o) * - lit 0.8 else vx (moved s o))
  /\ x (updateObject (Some c) s o)
     = (if touchesX c (moved s o)
        then clamp (size (moved s o)) (width c - size (moved s o))
                   (x (moved s o))
        else x (moved s o)).
Proof.
  rewrite updateObject_stages. generalize (moved s o) as m. intros m.
  cbn [wallCollision]. unfold bounceY, bounceX.
  change (touchesX c (appendTrail m)) with (touchesX c m).
  destruct (touchesX c m); case_innermost_if; split; reflexivity.
Qed.

Lemma updateObject_y_axis c s o :
  vy (updateObject (Some c) s o)
  = (if touchesY c (moved s o)
     then vy (moved s o) * - lit 0.8 else vy (moved s o))
  /\ y (updateObject (Some c) s o)
     = (if touchesY c (moved s o)
        then clamp (size (moved s o)) (height c - size (moved s o))
                   (y (moved s o))
        else y (moved s o)).
Proof.
  rewrite updateObject_stages. generalize (moved s o) as m. intros m.
  cbn [wallCollision]. unfold bounceY, bounceX.
  change (touchesX c (appendTrail m)) with (touchesX c m).
  destruct (touchesX c m);
    match goal with
    | |- context [touchesY c ?a] => change (touchesY c a) with (touchesY c m)
    end;
    destruct (touchesY c m); split; reflexivity.
Qed.

(** A frame that meets no wall ends after the trail stage. *)
Lemma updateObject_no_contact canvas s o :
  wallContact canvas s o = false ->
  updateObject canvas s o = appendTrail (moved s o).
Proof.
  intros H. rewrite updateObject_stages.
  destruct canvas as [c|]; [|reflexivity].
  cbn in H. apply orb_false_iff in H as [Hx Hy].
  cbn [wallCollision]. unfold bounceY, bounceX.
  change (touchesX c (appendTrail (moved s o))) with (touchesX c (moved s o)).
  rewrite Hx.
  change (touchesY c (appendTrail (moved s o))) with (touchesY c (moved s o)).
  now rewrite Hy.
Qed.

(** Sliding without friction and without gravity: the velocity is kept
    and added to the position. *)
Lemma updateObject_free canvas s o :
  (friction s >? lit 0) = false -> gravity s = false ->
  wallContact canvas s o = false ->
  let o' := updateObject canvas s o in
  vx o' = vx o /\ vy o' = vy o /\ x o' = x o + vx o /\ y o' = y o + vy o.
Proof.
  intros Hf Hg Hc. cbn zeta. rewrite (updateObject_no_contact _ _ _ Hc).
  unfold moved, applyFriction, applyGravity. rewrite Hf, Hg.
  repeat split.
Qed.


(** Gravity alone, on a frame that meets neither floor nor ceiling. *)
Lemma updateObject_gravity canvas s o :
  (friction s >? lit 0) = false -> gravity s = true ->
  match canvas with
  | Some c => touchesY c (moved s o) = false
  | None => True
  end ->
  vy (updateObject canvas s o) = vy o + lit 0.3.
Proof.
  intros Hf Hg Hc.
  assert (E : vy (moved s o) = vy o + lit 0.3).
  { unfold moved, applyFriction, applyGravity. now rewrite Hf, Hg. }
  destruct canvas as [c|].
  - destruct (updateObject_y_axis c s o) as [Hy _].
    now rewrite Hy, Hc.
  - rewrite updateObject_stages. exact E.
Qed.

(** *** Several frames *)

Lemma track_app es1 es2 o :
  track (es1 ++ es2) o = track es2 (track es1 o).
Proof. revert o; induction es1 as [|e es1 IH]; intros o; cbn; auto. Qed.

Lemma recorded_app es1 es2 o :
  recorded (es1 ++ es2) o = recorded es1 o ++ recorded es2 (track es1 o).
Proof.
  revert o; induction es1 as [|e es1 IH]; intros o; cbn; [reflexivity|].
  now rewrite IH.
Qed.

Lemma recorded_length es o : List.length (recorded es o) = List.length es.
Proof. revert o; induction es as [|e es IH]; intros o; cbn; auto. Qed.

Lemma track_trail es o :
  List.length (trail o) <= 50 ->
  trail (track es o) = slice_last 50 (trail o ++ recorded es o).
Proof.
  revert o; induction es as [|e es IH]; intros o Ho; cbn [track recorded].
  - rewrite app_nil_r. symmetry. now apply slice_last_short.
  - rewrite IH by apply updateObject_trail_length.
    rewrite updateObject_trail, slice_last_app, <- app_assoc. reflexivity.
Qed.

Lemma frames_S canvas s n o :
  frames canvas s (S n) o = frames canvas s n (updateObject canvas s o).
Proof. reflexivity. Qed.

Lemma frames_S_last canvas s n o :
  frames canvas s (S n) o = updateObject canvas s (frames canvas s n o).
Proof.
  unfold frames. replace (S n) with (n + 1)%nat by lia.
  now rewrite repeat_app, track_app.
Qed.

(** What [updateObject] reads of the state is [friction] and [gravity]. *)
Lemma updateObject_ext canvas s s' o :
  friction s' = friction s -> gravity s' = gravity s ->
  updateObject canvas s' o = updateObject canvas s o.
Proof.
  intros Hf Hg. rewrite !updateObject_stages. unfold moved.
  now rewrite Hf, Hg.
Qed.

(** [n] calls of [updatePhysics] move every object by [n] frames. *)
Lemma updatePhysics_iter canvas s n :
  Nat.iter n (updatePhysics canvas) s
  = set_objects (map (frames canvas s n) (objects s)) s.
Proof.
  induction n as [|n IH].
  - unfold frames. cbn [Nat.iter nat_rect repeat track].
    rewrite map_id. now destruct s.
  - rewrite Nat.iter_succ, IH. unfold updatePhysics, set_objects.
    cbn [objects friction gravity isLaunching launchStart currentMouse
         level score isPlaying].
    rewrite map_map. f_equal.
    apply map_ext. intros o. rewrite frames_S_last.
    now apply updateObject_ext.
Qed.

(** *** Reachable worlds *)

Lemma launched_step w e :
  Forall launched (objects (current w)) ->
  Forall launched (objects (current (step w e))).
Proof.
  intros H. destruct e as [c| | |p|p|rnd| | |v|b]; cbn [step].
  - (* Resize *) exact H.
  - (* Render *) exact H.
  - (* Frame *)
    destruct (isPlaying (rendered w)); [|exact H].
    cbn [set_current current updatePhysics set_objects objects].
    rewrite Forall_map. eapply Forall_impl; [|exact H].
    intros o (rnd & x0 & y0 & vx0 & vy0 & es & ->).
    exists rnd, x0, y0, vx0, vy0, (es ++ [(canvasRef w, current w)]).
    now rewrite track_app.
  - (* MouseDown *)
    unfold handleCanvasMouseDown. destruct (canvasRef w); exact H.
  - (* MouseMove *)
    unfold handleCanvasMouseMove.
    destruct (negb _); [exact H|]. destruct (canvasRef w); exact H.
  - (* MouseUp *)
    unfold handleCanvasMouseUp.
    destruct (isLaunching (rendered w)); [|exact H].
    destruct (launchStart (rendered w)) as [st|]; [|exact H].
    destruct (currentMouse (rendered w)) as [m|]; [|exact H].
    cbn [set_current current objects]. apply Forall_app. split; [exact H|].
    constructor; [|constructor].
    eexists _, _, _, _, _, []. reflexivity.
  - (* ResetLab *) constructor.
  - (* NextLevel *)
    unfold nextLevel. destruct (nth_error _ _); [constructor|exact H].
  - (* FrictionSlider *) exact H.
  - (* GravityCheckbox *) exact H.
Qed.

Lemma Reachable_launched w :
  Reachable w -> Forall launched (objects (current w)).
Proof.
  intros [es <-]. unfold run. rewrite <- fold_left_rev_right.
  induction (rev es) as [|e l IH]; cbn; [constructor|].
  now apply launched_step.
Qed.

Lemma launched_trail_length o : launched o -> List.length (trail o) <= 50.
Proof.
  intros (rnd & x0 & y0 & vx0 & vy0 & es & ->).
  rewrite track_trail by (cbn; lia). rewrite slice_last_length. lia.
Qed.

(** *** The objects of a world and the frames they live through *)

Lemma map_track_nil (l : list GameObject) : map (track []) l = l.
Proof. exact (map_id l). Qed.

(** An event that does not empty the collection moves every object by the
    physics step it performs, if any, and may append a new object. *)
Lemma objects_after_event w e :
  clearsObjects e = false ->
  exists added,
    objects (current (step w e))
    = map (track (frameEnv w e)) (objects (current w)) ++ added.
Proof.
  intros H. destruct e as [c| | |p|p|rnd| | |v|b];
    try discriminate H; cbn [step frameEnv].
  - (* Resize *) exists []. now rewrite map_track_nil, app_nil_r.
  - (* Render *) exists []. now rewrite map_track_nil, app_nil_r.
  - (* Frame *)
    exists []. rewrite app_nil_r.
    destruct (isPlaying (rendered w)).
    + reflexivity.
    + now rewrite map_track_nil.
  - (* MouseDown *)
    exists []. rewrite map_track_nil, app_nil_r.
    unfold handleCanvasMouseDown. destruct (canvasRef w); reflexivity.
  - (* MouseMove *)
    exists []. rewrite map_track_nil, app_nil_r.
    unfold handleCanvasMouseMove.
    destruct (negb _); [reflexivity|]. destruct (canvasRef w); reflexivity.
  - (* MouseUp *)
    rewrite map_track_nil. unfold handleCanvasMouseUp.
    destruct (isLaunching (rendered w));
      [|exists []; now rewrite app_nil_r].
    destruct (launchStart (rendered w)) as [st|];
      [|exists []; now rewrite app_nil_r].
    destruct (currentMouse (rendered w)) as [m|];
      [|exists []; now rewrite app_nil_r].
    eexists. reflexivity.
  - (* FrictionSlider *) exists []. now rewrite map_track_nil, app_nil_r.
  - (* GravityCheckbox *) exists []. now rewrite map_track_nil, app_nil_r.
Qed.

Lemma objects_after_events w evs :
  keepsObjects evs = true ->
  exists added,
    objects (current (run w evs))
    = map (track (frameEnvs w evs)) (objects (current w)) ++ added.
Proof.
  revert w. induction evs as [|e evs IH]; intros w H.
  - exists []. cbn. now rewrite map_track_nil, app_nil_r.
  - cbn [keepsObjects forallb] in H. apply andb_true_iff in H as [He Hr].
    apply negb_true_iff in He.
    destruct (@objects_after_event w e He) as [a1 E1].
    destruct (IH (step w e) Hr) as [a2 E2].
    exists (map (track (frameEnvs (step w e) evs)) a1 ++ a2).
    change (run w (e :: evs)) with (run (step w e) evs).
    rewrite E2, E1, map_app, map_map, <- app_assoc.
    cbn [frameEnvs]. f_equal. apply map_ext. intros o.
    now rewrite track_app.
Qed.

(** The object at index [i] stays at index [i] and goes through the
    physics steps of the events. *)
Lemma object_after_events w evs i o :
  keepsObjects evs = true ->
  nth_error (objects (current w)) i = Some o ->
  nth_error (objects (current (run w evs))) i
  = Some (track (frameEnvs w evs) o).
Proof.
  intros H Hi. destruct (@objects_after_events w evs H) as [added E].
  rewrite E, nth_error_app1.
  - now apply map_nth_error.
  - rewrite length_map. apply nth_error_Some. congruence.
Qed.


End Stepper.

(* ================================================================== *)
(** ** Properties that hold in every arithmetic *)

Section Claims.

Context {N : Number}.
Local Open Scope js_scope.

Implicit Types (o : GameObject) (s : GameState) (w : World).

(** C1: a physics step transforms every object by (1) gravity, [vy += 0.3]
    when enabled, whatever the mass; (2) friction, [vx] and [vy] times
    [1 - friction] when [friction > 0]; (3) integration, [x += vx] and
    [y += vy]; (4) appending the new position to the trail; (5) wall
    collision, in this order.  Friction scales the [vy] gravity has
    already updated, and the last trail entry is the position before the
    wall clamp. *)
Theorem updatePhysics_stage_order (canvas : option Canvas)
        (prevState : GameState) (o : GameObject) (m : num) :
  let f := friction prevState in
  updatePhysics canvas prevState
  = set_objects
      (map (fun o => wallCollision canvas
                       (appendTrail
                          (integrate
                             (applyFriction f
                                (applyGravity (gravity prevState) o)))))
           (objects prevState))
      prevState
  /\ applyGravity true o = set_vy (vy o + lit 0.3) o
  /\ applyGravity false o = o
  /\ updateObject canvas prevState (set_mass m o)
     = set_mass m (updateObject canvas prevState o)
  /\ vx (applyFriction f o) = (if f >? lit 0 then vx o * (lit 1 - f) else vx o)
  /\ vy (applyFriction f (applyGravity true o))
     = (if f >? lit 0 then (vy o + lit 0.3) * (lit 1 - f) else vy o + lit 0.3)
  /\ position (integrate o) = mkPoint (x o + vx o) (y o + vy o)
  /\ exists t, trail (updateObject canvas prevState o)
               = t ++ [position (moved prevState o)].
Proof.
  intros f. repeat split.
  - unfold updatePhysics. f_equal. apply map_ext. intros a.
    apply updateObject_stages.
  - apply updateObject_set_mass.
  - unfold applyFriction. destruct (f >? lit 0); reflexivity.
  - unfold applyFriction, applyGravity. destruct (f >? lit 0); reflexivity.
  - apply updateObject_trail_snoc.
Qed.

(** C6: in every reachable state every object's trail has at most 50
    entries.  Whatever events follow, as long as none empties the
    collection, the object stays where it is in the collection, goes through
    the physics steps these events perform, and its trail is the old trail
    followed by the position after the integration of each step, oldest
    first, cut to the last 50: [min 50 (old length + steps)] entries.  Once
    50 steps or more were performed these are exactly 50 entries, the
    positions recorded by the 50 most recent steps in their order. *)
Theorem trail_bounded_fifo w (evs : list Event) (i : nat) o :
  Reachable w -> nth_error (objects (current w)) i = Some o ->
  keepsObjects evs = true ->
  let es := frameEnvs w evs in
  let o' := track es o in
  List.length (trail o) <= 50
  /\ nth_error (objects (current (run w evs))) i = Some o'
  /\ trail o' = slice_last 50 (trail o ++ recorded es o)
  /\ List.length (trail o') = Nat.min 50 (List.length (trail o) + List.length es)
  /\ (50 <= List.length es -> List.length (trail o') = 50)
  /\ forall es1 es2,
      es = es1 ++ es2 -> List.length es2 = 50 ->
      trail o' = recorded es2 (track es1 o).
Proof.
  intros Hw Hi Hk es o'.
  assert (L : List.length (trail o) <= 50).
  { apply launched_trail_length.
    pose proof (Reachable_launched Hw) as Hl. rewrite Forall_forall in Hl.
    apply Hl. eapply nth_error_In. exact Hi. }
  assert (T : trail o' = slice_last 50 (trail o ++ recorded es o))
    by (apply track_trail; exact L).
  assert (Len : List.length (trail o')
                = Nat.min 50 (List.length (trail o) + List.length es)).
  { now rewrite T, slice_last_length, length_app, recorded_length. }
  split; [exact L|].
  split; [now apply object_after_events|].
  split; [exact T|].
  split; [exact Len|].
  split; [intros H; rewrite Len; lia|].
  intros es1 es2 E H2. rewrite T, E, recorded_app, app_assoc.
  apply slice_last_suffix. now rewrite recorded_length.
Qed.


(** The launch performed by [handleCanvasMouseUp] when a gesture is in
    progress. *)
Lemma handleCanvasMouseUp_launch rnd gameState prev start mouse :
  isLaunching gameState = true ->
  launchStart gameState = Some start ->
  currentMouse gameState = Some mouse ->
  let vx0 := (px mouse - px start) * lit 0.2 in
  let vy0 := (py mouse - py start) * lit 0.2 in
  handleCanvasMouseUp rnd gameState prev
  = mkState (objects prev ++ [createObject rnd (px start) (py start) vx0 vy0])
            (friction prev) (gravity prev) false None None
            (level prev) (score prev + Math_abs vx0 + Math_abs vy0)
            (isPlaying prev).
Proof. unfold handleCanvasMouseUp. intros -> -> ->. reflexivity. Qed.

(** C8: advancing the level sets the index to [min (level + 1) 3], and in
    the same update empties the collection and takes friction and gravity
    from the preset of the new level; the last preset is friction 0.03 with
    gravity, so three advances from level 0 end with an empty collection
    and the parameters (0.03, true). *)
Theorem nextLevel_clamped_preset (gameState prev : GameState) w :
  level (rendered w) = 0 ->
  let newLevel := Nat.min (level gameState + 1) 3 in
  (exists l,
      nth_error LEVELS newLevel = Some l
      /\ nextLevel gameState prev
         = Some (mkState [] (lfriction l) (lgravity l)
                         (isLaunching prev) (launchStart prev)
                         (currentMouse prev)
                         newLevel (score prev) (isPlaying prev)))
  /\ map (fun l => (lfriction l, lgravity l)) LEVELS
     = [(lit 0, false); (lit 0.02, false); (lit 0.01, true); (lit 0.03, true)]
  /\ let s3 := current (run w [NextLevel; Render; NextLevel; Render; NextLevel]) in
     level s3 = 3 /\ objects s3 = [] /\ friction s3 = lit 0.03
     /\ gravity s3 = true.
Proof.
  intros H0 newLevel. split; [|split].
  - unfold nextLevel. change (List.length LEVELS - 1)%nat with 3.
    fold newLevel.
    assert (Hn : newLevel <= 3) by apply Nat.le_min_r.
    destruct newLevel as [|[|[|[|n]]]]; [eexists; split; reflexivity ..|lia].
  - reflexivity.
  - cbn. unfold nextLevel. rewrite H0. cbn. repeat split.
Qed.

(** C9: a pointer release while no gesture is in progress (not launching,
    or no recorded start, or no recorded pointer) changes nothing: no
    object is created, collection and score are as before. *)
Theorem handleCanvasMouseUp_no_gesture rnd (gameState prev : GameState) w :
  isLaunching gameState = false \/ launchStart gameState = None
  \/ currentMouse gameState = None ->
  handleCanvasMouseUp rnd gameState prev = prev
  /\ objects (handleCanvasMouseUp rnd gameState prev) = objects prev
  /\ score (handleCanvasMouseUp rnd gameState prev) = score prev
  /\ (rendered w = gameState -> step w (MouseUp rnd) = w).
Proof.
  intros H.
  assert (E : forall p, handleCanvasMouseUp rnd gameState p = p).
  { intros p. unfold handleCanvasMouseUp.
    destruct H as [-> | [-> | ->]]; [reflexivity| |].
    - now destruct (isLaunching gameState).
    - now destruct (isLaunching gameState), (launchStart gameState). }
  rewrite E. repeat split.
  intros <-. cbn. rewrite E. now destruct w.
Qed.

(** C10: reset empties the collection and clears the gesture and keeps
    friction, gravity, level, score and the playing flag; on a state that
    has no object and no gesture it changes nothing. *)
Theorem resetGame_frame (prev : GameState)
        (f : num) (g : bool) (l : nat) (sc : num) (p : bool) :
  resetGame prev
  = mkState [] (friction prev) (gravity prev) false None None
            (level prev) (score prev) (isPlaying prev)
  /\ resetGame (mkState [] f g false None None l sc p)
     = mkState [] f g false None None l sc p
  /\ resetGame (resetGame prev) = resetGame prev.
Proof. repeat split. Qed.

End Claims.

(* ================================================================== *)
(** ** Physics in exact arithmetic *)

Section ExactPhysics.

Local Open Scope Q_scope.

Implicit Types (o : QObject) (s : QState) (c : QCanvas).

Lemma Qle_bool_false a b : Qle_bool a b = false -> b < a.
Proof.
  intros H. apply Qnot_le_lt. intros L.
  apply Qle_bool_iff in L. congruence.
Qed.

Lemma Qltb_true a b : Qltb a b = true <-> a < b.
Proof.
  unfold Qltb. split.
  - intros H. apply negb_true_iff in H. now apply Qle_bool_false.
  - intros H. apply negb_true_iff. destruct (Qle_bool b a) eqn:E; [|reflexivity].
    apply Qle_bool_iff in E. Lqa.lra.
Qed.

Lemma Qltb_false a b : Qltb a b = false <-> b <= a.
Proof.
  unfold Qltb. rewrite negb_false_iff. apply Qle_bool_iff.
Qed.

(** [Math.max(lo, Math.min(hi, v))] lies between [lo] and [hi]. *)
Lemma clamp_inside (lo hi v : Q) :
  lo <= hi ->
  lo <= clamp (N:=Exact) lo hi v /\ clamp (N:=Exact) lo hi v <= hi.
Proof.
  intros H. unfold clamp. cbn. unfold Qmax, Qmin.
  destruct (Qle_bool hi v) eqn:E1;
    match goal with
    | |- context [Qle_bool lo ?a] => destruct (Qle_bool lo a) eqn:E2
    end;
    try apply Qle_bool_iff in E1; try apply Qle_bool_false in E1;
    try apply Qle_bool_iff in E2; try apply Qle_bool_false in E2;
    Lqa.lra.
Qed.

Lemma touchesX_false c o :
  touchesX c o = false <-> size o < x o /\ x o < width c - size o.
Proof.
  unfold touchesX. cbn. rewrite orb_false_iff. split.
  - intros [H1 H2]. split; now apply Qle_bool_false.
  - intros [H1 H2]. split.
    + destruct (Qle_bool (x o) (size o)) eqn:E; [|reflexivity].
      apply Qle_bool_iff in E. Lqa.lra.
    + destruct (Qle_bool (width c - size o) (x o)) eqn:E; [|reflexivity].
      apply Qle_bool_iff in E. Lqa.lra.
Qed.

Lemma touchesY_false c o :
  touchesY c o = false <-> size o < y o /\ y o < height c - size o.
Proof.
  unfold touchesY. cbn. rewrite orb_false_iff. split.
  - intros [H1 H2]. split; now apply Qle_bool_false.
  - intros [H1 H2]. split.
    + destruct (Qle_bool (y o) (size o)) eqn:E; [|reflexivity].
      apply Qle_bool_iff in E. Lqa.lra.
    + destruct (Qle_bool (height c - size o) (y o)) eqn:E; [|reflexivity].
      apply Qle_bool_iff in E. Lqa.lra.
Qed.

Lemma touchesX_true c o :
  touchesX c o = true <-> x o <= size o \/ width c - size o <= x o.
Proof.
  unfold touchesX. cbn. rewrite orb_true_iff, !Qle_bool_iff. reflexivity.
Qed.

Lemma touchesY_true c o :
  touchesY c o = true <-> y o <= size o \/ height c - size o <= y o.
Proof.
  unfold touchesY. cbn. rewrite orb_true_iff, !Qle_bool_iff. reflexivity.
Qed.

(** The wall stage leaves the object inside, whatever object [m] it is
    given. *)
Lemma wall_stage_inside c (m o' : QObject) :
  size o' = size m ->
  x o' = (if touchesX c m
          then clamp (size m) (width c - size m) (x m) else x m)%js ->
  y o' = (if touchesY c m
          then clamp (size m) (height c - size m) (y m) else y m)%js ->
  size m <= width c - size m -> size m <= height c - size m ->
  inside c o'.
Proof.
  intros Hs Hx Hy Hw Hh. unfold inside. rewrite Hs, Hx, Hy. split.
  - destruct (touchesX c m) eqn:E.
    + now apply clamp_inside.
    + apply touchesX_false in E. Lqa.lra.
  - destruct (touchesY c m) eqn:E.
    + now apply clamp_inside.
    + apply touchesY_false in E. Lqa.lra.
Qed.

Lemma updateObject_inside c s o :
  size o <= width c - size o -> size o <= height c - size o ->
  inside c (updateObject (Some c) s o).
Proof.
  intros Hw Hh.
  rewrite <- (moved_size s o) in Hw, Hh.
  apply (@wall_stage_inside c (moved s o)); trivial.
  - rewrite updateObject_size. symmetry. apply moved_size.
  - apply updateObject_x_axis.
  - apply updateObject_y_axis.
Qed.

(** C2 (amended): after every physics step run with a canvas at least two
    radii wide and high, every object lies within
    [[radius, dimension - radius]] on both axes, whatever its velocity. *)
Theorem updatePhysics_inside c s o' :
  In o' (objects (updatePhysics (Some c) s)) ->
  size o' <= width c - size o' -> size o' <= height c - size o' ->
  (size o' <= x o' /\ x o' <= width c - size o')
  /\ (size o' <= y o' /\ y o' <= height c - size o').
Proof.
  unfold updatePhysics, set_objects. cbn [objects]. intros Hin.
  apply in_map_iff in Hin as (o & <- & _).
  pose proof (@updateObject_inside c s o) as H.
  pose proof (updateObject_size (Some c) s o) as Hs.
  set (o' := updateObject (Some c) s o) in *. clearbody o'.
  unfold inside in H. rewrite Hs. intros Hw Hh.
  specialize (H Hw Hh). now rewrite Hs in H.
Qed.

Lemma moved_frictionless s o :
  friction s <= 0 ->
  vx (moved s o) = vx o /\ x (moved s o) = x o + vx o.
Proof.
  intros Hf. unfold moved, integrate, applyFriction.
  replace (friction s >? lit 0)%js with false
    by (symmetry; apply Qltb_false; exact Hf).
  unfold applyGravity. now destruct (gravity s).
Qed.

Lemma clamp_above (lo hi v : Q) :
  lo <= hi -> hi <= v -> clamp (N:=Exact) lo hi v = hi.
Proof.
  intros H1 H2. unfold clamp. cbn. unfold Qmax, Qmin.
  replace (Qle_bool hi v) with true by (symmetry; now apply Qle_bool_iff).
  replace (Qle_bool lo hi) with true by (symmetry; now apply Qle_bool_iff).
  reflexivity.
Qed.

(** C3: the walls are handled per axis after the integration.  Where the
    position is at most [radius] or at least [dimension - radius], the
    velocity on that axis becomes [-0.8] times what it was before the
    collision and the position is clamped into
    [[radius, dimension - radius]]; elsewhere both are kept.  An object
    1px from the right wall with velocity (+50, 0) has, a frictionless
    frame later, [vx = -40] and [x = dimension - radius]; so it is in
    binary64 on a canvas of 800 by 600. *)
Theorem wall_bounce c s o :
  size o <= width c - size o -> size o <= height c - size o ->
  let m := moved s o in
  let o' := updateObject (Some c) s o in
  (x m <= size o \/ width c - size o <= x m ->
   vx o' = (vx m * - lit 0.8)%js
   /\ x o' = clamp (size o) (width c - size o)%js (x m)
   /\ size o <= x o' /\ x o' <= width c - size o)
  /\ (size o < x m /\ x m < width c - size o -> vx o' = vx m /\ x o' = x m)
  /\ (y m <= size o \/ height c - size o <= y m ->
      vy o' = (vy m * - lit 0.8)%js
      /\ y o' = clamp (size o) (height c - size o)%js (y m)
      /\ size o <= y o' /\ y o' <= height c - size o)
  /\ (size o < y m /\ y m < height c - size o -> vy o' = vy m /\ y o' = y m)
  /\ (x o == width c - size o - 1 -> vx o == 50 -> friction s <= 0 ->
      vx o' == -40 /\ x o' = width c - size o)
  /\ (let o64 := @rightWallObject Binary64 in
      let o64' := updateObject (Some stage) initialState o64 in
      x o64 = 779%float /\ vx o64 = 50%float
      /\ vx o64' = (-40)%float /\ x o64' = 780%float).
Proof.
  intros Hw Hh m o'.
  destruct (updateObject_x_axis c s o) as [Hvx Hx].
  destruct (updateObject_y_axis c s o) as [Hvy Hy].
  pose proof (moved_size s o) as Hm.
  pose proof (@moved_frictionless s o) as Hfree.
  fold m in Hvx, Hx, Hvy, Hy, Hm, Hfree.
  fold o' in Hvx, Hx, Hvy, Hy.
  clearbody m o'. rewrite Hm in Hx, Hy.
  assert (X : touchesX c m = true -> vx o' = (vx m * - lit 0.8)%js
              /\ x o' = clamp (size o) (width c - size o)%js (x m)
              /\ size o <= x o' /\ x o' <= width c - size o).
  { intros E. rewrite E in Hvx, Hx. rewrite Hx.
    repeat split; trivial; now apply clamp_inside. }
  assert (Y : touchesY c m = true -> vy o' = (vy m * - lit 0.8)%js
              /\ y o' = clamp (size o) (height c - size o)%js (y m)
              /\ size o <= y o' /\ y o' <= height c - size o).
  { intros E. rewrite E in Hvy, Hy. rewrite Hy.
    repeat split; trivial; now apply clamp_inside. }
  split; [|split; [|split; [|split; [|split]]]].
  - intros H. apply X, touchesX_true. now rewrite Hm.
  - intros H. rewrite <- Hm in H. apply touchesX_false in H.
    rewrite H in Hvx, Hx. now split.
  - intros H. apply Y, touchesY_true. now rewrite Hm.
  - intros H. rewrite <- Hm in H. apply touchesY_false in H.
    rewrite H in Hvy, Hy. now split.
  - intros Hx0 Hv0 Hf. destruct (Hfree Hf) as [Ev Ex].
    assert (T : width c - size o <= x m) by (rewrite Ex; Lqa.lra).
    destruct X as (Xv & Xx & _).
    { apply touchesX_true. rewrite Hm. now right. }
    split.
    + rewrite Xv, Ev. cbn. Lqa.lra.
    + rewrite Xx. now apply clamp_above.
  - vm_compute. repeat split.
Qed.

(** *** Friction *)

Lemma Qpower_succ (q : Q) (n : nat) :
  q ^ Z.of_nat (S n) == q * q ^ Z.of_nat n.
Proof.
  rewrite Nat2Z.inj_succ, <- Z.add_1_l, Qpower_plus' by lia.
  now rewrite Qpower_1_r.
Qed.

(** *** Gravity *)

(** C5 (amended): with gravity on and friction 0, every frame in which the
    object meets neither the top nor the bottom wall adds exactly 0.3 to
    [vy], which so increases strictly; a frame in which it meets one of
    them leaves [-0.8] times that sum. *)
Theorem gravity_accumulates c s o :
  gravity s = true -> friction s == 0 ->
  let m := moved s o in
  let o' := updateObject (Some c) s o in
  vy m = vy o + 0.3
  /\ (size o < y m /\ y m < height c - size o ->
      vy o' = vy o + 0.3 /\ vy o < vy o')
  /\ (y m <= size o \/ height c - size o <= y m ->
      vy o' = (vy o + 0.3) * - (0.8)).
Proof.
  intros Hg Hf m o'.
  assert (F : (friction s >? lit 0)%js = false).
  { apply Qltb_false. cbn. Lqa.lra. }
  assert (Em : vy m = vy o + 0.3).
  { unfold m, moved, applyFriction, applyGravity. now rewrite F, Hg. }
  destruct (updateObject_y_axis c s o) as [Hvy _].
  pose proof (moved_size s o) as Hm.
  fold m o' in Hvy, Hm. clearbody m o'.
  split; [exact Em|split].
  - intros H. rewrite <- Hm in H. apply touchesY_false in H.
    rewrite H, Em in Hvy. split; [exact Hvy|]. rewrite Hvy. Lqa.lra.
  - intros H. rewrite <- Hm in H. apply touchesY_true in H.
    rewrite H, Em in Hvy. exact Hvy.
Qed.

(** C5 as stated fails where the object lands: in the world reached by
    [fallTrace], gravity is on and friction is 0, and the next frame takes
    [vy] from 20.9 to -16.96. *)
Lemma floor_bounce_reverses_vy :
  let w := run (@initialWorld Exact) fallTrace in
  Reachable w
  /\ gravity (current w) = true /\ friction (current w) == 0
  /\ isPlaying (rendered w) = true
  /\ exists o o',
      objects (current w) = [o]
      /\ objects (current (step w Frame)) = [o']
      /\ vy o == 20.9 /\ vy o' == - (16.96)
      /\ ~ vy o' == vy o + 0.3 /\ ~ vy o < vy o'.
Proof.
  cbv zeta. split; [exists fallTrace; reflexivity|].
  do 3 (split; [reflexivity|]).
  eexists; eexists.
  split; [vm_compute; reflexivity|].
  split; [vm_compute; reflexivity|].
  cbn [vy].
  split; [reflexivity|]. split; [reflexivity|].
  split; intros H; vm_compute in H; discriminate H.
Qed.

(** C2 as stated fails between a launch and the next frame: the object
    launched by [cornerTrace] sits at the gesture start (5, 5), closer to
    the walls of [stage] than its radius 20. *)
Lemma launch_at_corner_outside :
  let w := run (@initialWorld Exact) cornerTrace in
  Reachable w
  /\ canvasRef w = Some stage
  /\ exists o,
      objects (current w) = [o]
      /\ x o == 5 /\ y o == 5 /\ size o == 20
      /\ ~ size o <= x o /\ ~ size o <= y o /\ ~ inside stage o.
Proof.
  cbv zeta. split; [exists cornerTrace; reflexivity|].
  split; [reflexivity|].
  eexists. split; [vm_compute; reflexivity|].
  cbn [x y size].
  do 3 (split; [reflexivity|]).
  split; [|split].
  - intros H. vm_compute in H. now apply H.
  - intros H. vm_compute in H. now apply H.
  - intros [[H _] _]. vm_compute in H. now apply H.
Qed.

(** *** Launching *)

(** Frames without friction, gravity and wall contact keep the velocity
    and add it to the position once per frame. *)
Lemma frames_free canvas s o n :
  friction s <= 0 -> gravity s = false ->
  (forall k, (k < n)%nat ->
             wallContact canvas s (frames canvas s k o) = false) ->
  let o' := frames canvas s n o in
  vx o' = vx o /\ vy o' = vy o
  /\ x o' == x o + inject_Z (Z.of_nat n) * vx o
  /\ y o' == y o + inject_Z (Z.of_nat n) * vy o.
Proof.
  intros Hf Hg. cbv zeta. revert o. induction n as [|n IH]; intros o Hc.
  - change (frames canvas s 0 o) with o. cbn [Z.of_nat]. unfold inject_Z.
    split; [reflexivity|split; [reflexivity|split; Lqa.lra]].
  - rewrite frames_S.
    destruct (@updateObject_free Exact canvas s o) as (Ex & Ey & Px & Py);
      trivial.
    { now apply Qltb_false. }
    { apply (Hc 0%nat). lia. }
    destruct (IH (updateObject canvas s o)) as (Hx & Hy & Qx & Qy).
    { intros k Hk. rewrite <- frames_S. apply Hc. lia. }
    rewrite Hx, Hy, Qx, Qy, Ex, Ey, Px, Py, Nat2Z.inj_succ.
    unfold Z.succ. rewrite inject_Z_plus. cbn [add Exact].
    repeat split; ring.
Qed.

(** C7: a completed gesture appends exactly one object, placed at the
    gesture start with velocity 0.2 times (pointer - start) and an empty
    trail, clears the gesture and adds [|vx| + |vy|] to the score.  A drag
    vector (100, 0) gives the velocity (20, 0); ten frames without
    friction, gravity and wall contact later the velocity is still
    (20, 0) and the position is 200 further on the x axis.  So it is in
    binary64 for the launch of [dragTrace]. *)
Theorem launch_gesture rnd (gameState prev : QState) (start mouse : Point)
        canvas s :
  isLaunching gameState = true ->
  launchStart gameState = Some start ->
  currentMouse gameState = Some mouse ->
  let vx0 := (px mouse - px start) * 0.2 in
  let vy0 := (py mouse - py start) * 0.2 in
  let o0 := createObject rnd (px start) (py start) vx0 vy0 in
  let s' := handleCanvasMouseUp rnd gameState prev in
  s' = mkState (objects prev ++ [o0]) (friction prev) (gravity prev)
               false None None
               (level prev) (score prev + Qabs vx0 + Qabs vy0)
               (isPlaying prev)
  /\ List.length (objects s') = S (List.length (objects prev))
  /\ position o0 = start /\ vx o0 = vx0 /\ vy o0 = vy0 /\ trail o0 = []
  /\ score s' - score prev == Qabs vx0 + Qabs vy0
  /\ (px mouse - px start == 100 -> py mouse - py start == 0 ->
      friction s == 0 -> gravity s = false ->
      (forall k, (k < 10)%nat ->
                 wallContact canvas s (frames canvas s k o0) = false) ->
      let o10 := frames canvas s 10 o0 in
      (vx0 == 20 /\ vy0 == 0)
      /\ (vx o10 == 20 /\ vy o10 == 0)
      /\ (x o10 == px start + 200 /\ y o10 == py start + 0))
  /\ (let w := run (@initialWorld Binary64) dragTrace in
      map (fun b : @GameObject Binary64 => (x b, y b, vx b, vy b))
          (objects (current w))
      = [(300, 300, 20, 0)]%float
      /\ score (current w) = 20%float).
Proof.
  intros Hl Hs Hm vx0 vy0 o0 s'.
  assert (E : s' = mkState (objects prev ++ [o0]) (friction prev)
                           (gravity prev) false None None (level prev)
                           (score prev + Qabs vx0 + Qabs vy0)
                           (isPlaying prev)).
  { exact (@handleCanvasMouseUp_launch Exact rnd gameState prev start mouse
                                       Hl Hs Hm). }
  split; [exact E|]. rewrite E. clearbody s'.
  split. { cbn [objects]. rewrite length_app. cbn. lia. }
  split. { now destruct start. }
  do 3 (split; [reflexivity|]).
  split. { cbn [score]. ring. }
  split.
  - intros Dx Dy Hf Hg Hc o10.
    destruct (@frames_free canvas s o0 10) as (Hx & Hy & Px & Py); trivial.
    { Lqa.lra. }
    fold o10 in Hx, Hy, Px, Py. clearbody o10.
    rewrite Hx, Hy, Px, Py.
    change (vx o0) with vx0. change (vy o0) with vy0.
    change (x o0) with (px start). change (y o0) with (py start).
    assert (Vx : vx0 == 20) by (unfold vx0; rewrite Dx; reflexivity).
    assert (Vy : vy0 == 0) by (unfold vy0; rewrite Dy; reflexivity).
    rewrite Vx, Vy. repeat split; reflexivity.
  - vm_compute. split; reflexivity.
Qed.

End ExactPhysics.

(* ================================================================== *)
(** ** The wall stage in binary64 *)

Section Binary64Walls.

Implicit Types (a b lo hi v : float) (o : FObject) (s : FState) (c : FCanvas).

(** *** Comparison of specification floats *)

Lemma SFcompare_swap (f1 f2 : spec_float) :
  SFcompare f2 f1 = option_map CompOpp (SFcompare f1 f2).
Proof.
  destruct f1 as [s1|s1| |s1 m1 e1], f2 as [s2|s2| |s2 m2 e2]; cbn;
    try reflexivity;
    try (destruct s1; reflexivity); try (destruct s2; reflexivity);
    try (destruct s1, s2; reflexivity).
  destruct s1, s2; cbn; try reflexivity;
    rewrite (Z.compare_antisym e1 e2); destruct (e1 ?= e2)%Z; cbn;
    try reflexivity;
    change Eq with (CompOpp Eq) at 1; rewrite <- Pos.compare_cont_antisym;
    reflexivity.
Qed.

Lemma SFcompare_refl (f : spec_float) :
  f <> S754_nan -> SFcompare f f = Some Eq.
Proof.
  destruct f as [s|s| |s m e]; cbn; intros H; try reflexivity.
  - now destruct s.
  - congruence.
  - destruct s; rewrite Z.compare_refl, Pos.compare_cont_refl; reflexivity.
Qed.

Lemma SFcompare_defined (f1 f2 : spec_float) :
  f1 <> S754_nan -> f2 <> S754_nan -> SFcompare f1 f2 <> None.
Proof.
  destruct f1 as [s1|s1| |s1 m1 e1], f2 as [s2|s2| |s2 m2 e2]; cbn;
    intros H1 H2; congruence.
Qed.

(** *** Comparison of doubles *)

Lemma is_nan_false a : PrimFloat.is_nan a = false <-> Prim2SF a <> S754_nan.
Proof.
  unfold PrimFloat.is_nan. rewrite FloatAxioms.eqb_spec. unfold SFeqb. split.
  - intros H E. rewrite E in H. discriminate H.
  - intros H. now rewrite SFcompare_refl.
Qed.

Lemma leb_number a b :
  PrimFloat.leb a b = true ->
  PrimFloat.is_nan a = false /\ PrimFloat.is_nan b = false.
Proof.
  rewrite FloatAxioms.leb_spec, !is_nan_false. unfold SFleb.
  destruct (Prim2SF a), (Prim2SF b); cbn; intros H; split; congruence.
Qed.

Lemma ltb_leb a b : PrimFloat.ltb a b = true -> PrimFloat.leb a b = true.
Proof.
  rewrite FloatAxioms.ltb_spec, FloatAxioms.leb_spec. unfold SFltb, SFleb.
  destruct (SFcompare _ _) as [[]|]; congruence.
Qed.

Lemma leb_refl a : PrimFloat.is_nan a = false -> PrimFloat.leb a a = true.
Proof.
  rewrite FloatAxioms.leb_spec, is_nan_false. unfold SFleb. intros H.
  now rewrite SFcompare_refl.
Qed.

Lemma ltb_false_leb a b :
  PrimFloat.is_nan a = false -> PrimFloat.is_nan b = false ->
  PrimFloat.ltb a b = false -> PrimFloat.leb b a = true.
Proof.
  rewrite FloatAxioms.ltb_spec, FloatAxioms.leb_spec, !is_nan_false. unfold SFltb, SFleb.
  intros Ha Hb. rewrite (SFcompare_swap (Prim2SF a) (Prim2SF b)).
  pose proof (SFcompare_defined Ha Hb) as D.
  destruct (SFcompare _ _) as [[]|]; cbn; congruence.
Qed.

Lemma leb_false_leb a b :
  PrimFloat.is_nan a = false -> PrimFloat.is_nan b = false ->
  PrimFloat.leb a b = false -> PrimFloat.leb b a = true.
Proof.
  rewrite !FloatAxioms.leb_spec, !is_nan_false. unfold SFleb.
  intros Ha Hb. rewrite (SFcompare_swap (Prim2SF a) (Prim2SF b)).
  pose proof (SFcompare_defined Ha Hb) as D.
  destruct (SFcompare _ _) as [[]|]; cbn; congruence.
Qed.

(** [Math.max(lo, Math.min(hi, v))] lies between [lo] and [hi] unless [v]
    is NaN. *)
Lemma clamp_inside_binary64 lo hi v :
  PrimFloat.leb lo hi = true -> PrimFloat.is_nan v = false ->
  PrimFloat.leb lo (clamp (N:=Binary64) lo hi v) = true
  /\ PrimFloat.leb (clamp (N:=Binary64) lo hi v) hi = true.
Proof.
  intros H Hv. destruct (leb_number H) as [Nlo Nhi].
  unfold clamp. cbn [Math_max Math_min Binary64].
  assert (M : PrimFloat.is_nan (B64.min hi v) = false
              /\ PrimFloat.leb (B64.min hi v) hi = true).
  { unfold B64.min. rewrite Nhi, Hv. cbn [orb].
    destruct (PrimFloat.ltb hi v) eqn:E1.
    - split; [exact Nhi|now apply leb_refl].
    - destruct (PrimFloat.ltb v hi) eqn:E2.
      + split; [exact Hv|now apply ltb_leb].
      + destruct (B64.is_neg_zero hi).
        * split; [exact Nhi|now apply leb_refl].
        * split; [exact Hv|now apply ltb_false_leb]. }
  destruct M as [Nm Lm]. revert Nm Lm.
  generalize (B64.min hi v) as m. intros m Nm Lm.
  unfold B64.max. rewrite Nlo, Nm. cbn [orb].
  destruct (PrimFloat.ltb lo m) eqn:E1.
  - split; [now apply ltb_leb|exact Lm].
  - destruct (PrimFloat.ltb m lo) eqn:E2.
    + split; [now apply leb_refl|exact H].
    + destruct (B64.is_neg_zero lo).
      * split; [now apply ltb_false_leb|exact Lm].
      * split; [now apply leb_refl|exact H].
Qed.

(** In binary64 too a frame leaves the object inside the canvas, on each
    axis on which the integration yields a number: an overflow to infinity
    is clamped like any other position. *)
Lemma updateObject_inside_binary64 c s o :
  PrimFloat.leb (size o) (width c - size o) = true ->
  PrimFloat.leb (size o) (height c - size o) = true ->
  let m := moved s o in
  let o' := updateObject (Some c) s o in
  (PrimFloat.is_nan (x m) = false ->
   PrimFloat.leb (size o) (x o') = true
   /\ PrimFloat.leb (x o') (width c - size o) = true)
  /\ (PrimFloat.is_nan (y m) = false ->
      PrimFloat.leb (size o) (y o') = true
      /\ PrimFloat.leb (y o') (height c - size o) = true).
Proof.
  intros Hw Hh m o'.
  destruct (updateObject_x_axis c s o) as [_ Hx].
  destruct (updateObject_y_axis c s o) as [_ Hy].
  pose proof (moved_size s o) as Hm.
  fold m in Hx, Hy, Hm. fold o' in Hx, Hy. clearbody m o'.
  rewrite Hm in Hx, Hy.
  destruct (leb_number Hw) as [Ns Nw].
  destruct (leb_number Hh) as [_ Nh].
  split; intros Hn.
  - rewrite Hx. destruct (touchesX c m) eqn:E.
    + now apply clamp_inside_binary64.
    + unfold touchesX in E. rewrite Hm in E.
      apply orb_false_iff in E as [E1 E2].
      split; now apply leb_false_leb.
  - rewrite Hy. destruct (touchesY c m) eqn:E.
    + now apply clamp_inside_binary64.
    + unfold touchesY in E. rewrite Hm in E.
      apply orb_false_iff in E as [E1 E2].
      split; now apply leb_false_leb.
Qed.

End Binary64Walls.

(* ================================================================== *)
(** ** The theorems at concrete inputs *)

Section Instances.

Local Open Scope Q_scope.

(** The object launched by [cornerTrace], in binary64, through sixty
    frames between which the friction slider is moved: it stays the first
    object, and its trail is what the last fifty frames recorded. *)
Lemma trail_bounded_fifo_witness :
  let w := run (@initialWorld Binary64) cornerTrace in
  let evs := repeat Frame 40 ++ FrictionSlider (lit 0.02) :: repeat Frame 20 in
  let o := hd midObject (objects (current w)) in
  let es := frameEnvs w evs in
  let o' := track es o in
  (Reachable w /\ nth_error (objects (current w)) 0 = Some o
   /\ keepsObjects evs = true)
  /\ nth_error (objects (current (run w evs))) 0 = Some o'
  /\ List.length (trail o') = 50%nat
  /\ trail o' = recorded (skipn 10 es) (track (firstn 10 es) o).
Proof.
  cbv zeta.
  assert (R : Reachable (run (@initialWorld Binary64) cornerTrace))
    by (exists cornerTrace; reflexivity).
  assert (I : nth_error (objects (current (run (@initialWorld Binary64) cornerTrace))) 0
              = Some (hd midObject
                         (objects (current (run (@initialWorld Binary64) cornerTrace)))))
    by (vm_compute; reflexivity).
  assert (K : keepsObjects
                (repeat (@Frame Binary64) 40
                 ++ FrictionSlider (lit 0.02) :: repeat Frame 20) = true)
    by (vm_compute; reflexivity).
  split; [split; [exact R|split; [exact I|exact K]]|].
  destruct (@trail_bounded_fifo Binary64 _ _ _ _ R I K)
    as (_ & Hi & _ & _ & H50 & Hs).
  split; [exact Hi|].
  split.
  - apply H50. apply Nat.leb_le. vm_compute. reflexivity.
  - apply Hs.
    + symmetry. apply firstn_skipn.
    + vm_compute. reflexivity.
Defined.



(** Three advances from the initial world reach the last preset. *)
Lemma nextLevel_clamped_preset_witness :
  let s3 := current (run (@initialWorld Exact)
                         [NextLevel; Render; NextLevel; Render; NextLevel]) in
  level (rendered (@initialWorld Exact)) = 0%nat
  /\ level s3 = 3%nat /\ objects s3 = [] /\ friction s3 = 0.03
  /\ gravity s3 = true.
Proof.
  cbv zeta. split; [reflexivity|].
  exact (proj2 (proj2 (@nextLevel_clamped_preset
                         Exact initialState initialState initialWorld
                         eq_refl))).
Defined.

(** A release in the initial state, where nothing was pressed. *)
Lemma handleCanvasMouseUp_no_gesture_witness :
  isLaunching (@initialState Exact) = false
  /\ handleCanvasMouseUp someRandom initialState initialState
     = @initialState Exact.
Proof.
  split; [reflexivity|].
  exact (proj1 (@handleCanvasMouseUp_no_gesture
                  Exact someRandom initialState initialState initialWorld
                  (or_introl eq_refl))).
Defined.

(** The frame after the launch at the corner (5, 5) of [stage]. *)
Lemma updatePhysics_inside_witness :
  let s := current (run (@initialWorld Exact) cornerTrace) in
  let o' := hd midObject (objects (updatePhysics (Some (@stage Exact)) s)) in
  In o' (objects (updatePhysics (Some (@stage Exact)) s))
  /\ (size o' <= x o' /\ x o' <= width (@stage Exact) - size o')
  /\ (size o' <= y o' /\ y o' <= height (@stage Exact) - size o').
Proof.
  cbv zeta.
  assert (I : In (hd midObject (objects (updatePhysics (Some (@stage Exact))
                    (current (run (@initialWorld Exact) cornerTrace)))))
                 (objects (updatePhysics (Some (@stage Exact))
                    (current (run (@initialWorld Exact) cornerTrace)))))
    by (vm_compute; left; reflexivity).
  split; [exact I|].
  apply (@updatePhysics_inside (@stage Exact) _ _ I); vm_compute; discriminate.
Defined.

(** [rightWallObject] in the initial state. *)
Lemma wall_bounce_witness :
  let o' := updateObject (Some (@stage Exact)) initialState (@rightWallObject Exact) in
  vx o' == -40 /\ x o' = width (@stage Exact) - size (@rightWallObject Exact).
Proof.
  cbv zeta.
  assert (W : size (@rightWallObject Exact)
              <= width (@stage Exact) - size (@rightWallObject Exact))
    by (vm_compute; discriminate).
  assert (H : size (@rightWallObject Exact)
              <= height (@stage Exact) - size (@rightWallObject Exact))
    by (vm_compute; discriminate).
  destruct (@wall_bounce (@stage Exact) initialState rightWallObject W H)
    as (_ & _ & _ & _ & S & _).
  apply S; [reflexivity|reflexivity|vm_compute; discriminate].
Defined.

(** One frame of [midObject] under gravity. *)
Lemma gravity_accumulates_witness :
  let s := changeGravity (N:=Exact) true initialState in
  let o' := updateObject (Some (@stage Exact)) s (@midObject Exact) in
  vy o' = vy (@midObject Exact) + 0.3 /\ vy (@midObject Exact) < vy o'.
Proof.
  cbv zeta.
  destruct (@gravity_accumulates (@stage Exact)
              (changeGravity (N:=Exact) true initialState) midObject)
    as (_ & S & _); [reflexivity|reflexivity|].
  apply S. split; vm_compute; reflexivity.
Defined.

(** The gesture [dragging], released. *)
Lemma launch_gesture_witness :
  let o0 := createObject (N:=Exact) someRandom 100 300
                         ((200 - 100) * 0.2) ((300 - 300) * 0.2) in
  let o10 := frames (Some (@stage Exact)) initialState 10 o0 in
  List.length (objects (handleCanvasMouseUp someRandom (@dragging Exact) dragging))
  = 1%nat
  /\ (vx o10 == 20 /\ vy o10 == 0)
  /\ (x o10 == 100 + 200 /\ y o10 == 300 + 0).
Proof.
  cbv zeta.
  destruct (@launch_gesture someRandom dragging dragging
              (mkPoint (N:=Exact) 100 300) (mkPoint (N:=Exact) 200 300)
              (Some (@stage Exact)) initialState eq_refl eq_refl eq_refl)
    as (_ & L & _ & _ & _ & _ & _ & S & _).
  split; [exact L|].
  destruct S as (_ & V & P); try reflexivity.
  - intros k Hk.
    do 10 (destruct k as [|k]; [vm_compute; reflexivity|]). lia.
  - split; [exact V|exact P].
Defined.

End Instances.

(* ================================================================== *)
(** ** More on the stepper, for every arithmetic *)

Section StepperFrame.

Context {N : Number}.
Local Open Scope js_scope.

Implicit Types (o : GameObject) (s : GameState) (c : Canvas) (w : World).

Lemma moved_identity s o :
  id (moved s o) = id o /\ color (moved s o) = color o
  /\ mass (moved s o) = mass o.
Proof.
  unfold moved, integrate, applyFriction, applyGravity.
  destruct (gravity s), (friction s >? lit 0); repeat split.
Qed.

Lemma wall_stage_identity canvas (m : GameObject) :
  id (wallCollision canvas (appendTrail m)) = id m
  /\ color (wallCollision canvas (appendTrail m)) = color m
  /\ mass (wallCollision canvas (appendTrail m)) = mass m.
Proof.
  destruct canvas as [c|]; cbn -[Nat.ltb slice_last]; [|repeat split].
  unfold bounceY, bounceX.
  repeat case_innermost_if; repeat split.
Qed.

Lemma updateObject_identity canvas s o :
  id (updateObject canvas s o) = id o
  /\ color (updateObject canvas s o) = color o
  /\ mass (updateObject canvas s o) = mass o
  /\ size (updateObject canvas s o) = size o.
Proof.
  rewrite updateObject_stages.
  destruct (wall_stage_identity canvas (moved s o)) as (I & C & M).
  destruct (moved_identity s o) as (I' & C' & M').
  rewrite I, C, M, I', C', M'. repeat split.
  rewrite <- updateObject_stages. apply updateObject_size.
Qed.

(** X1: a physics step keeps the number and the order of the objects and
    the id, colour, mass and size of each, and changes no other field of
    the state. *)
Theorem updatePhysics_keeps_identity canvas s :
  let s' := updatePhysics canvas s in
  List.length (objects s') = List.length (objects s)
  /\ map id (objects s') = map id (objects s)
  /\ map color (objects s') = map color (objects s)
  /\ map mass (objects s') = map mass (objects s)
  /\ map size (objects s') = map size (objects s)
  /\ s' = set_objects (objects s') s.
Proof.
  cbv zeta. unfold updatePhysics, set_objects. cbn [objects].
  rewrite length_map, !map_map.
  repeat split; apply map_ext; intros o; apply updateObject_identity.
Qed.

Lemma moved_x_axis s o :
  vx (moved s o)
  = (if friction s >? lit 0 then vx o * (lit 1 - friction s) else vx o)
  /\ x (moved s o) = x o + vx (moved s o).
Proof.
  unfold moved, integrate, applyFriction, applyGravity.
  destruct (gravity s), (friction s >? lit 0); split; reflexivity.
Qed.

Lemma updateObject_no_canvas s o :
  updateObject None s o = appendTrail (moved s o).
Proof. now rewrite updateObject_stages. Qed.

(** X2: the horizontal motion of a frame depends on nothing but [x], [vx],
    the size, the friction and the width of the canvas: gravity, the
    vertical position and velocity, the trail and the height have no
    influence on it. *)
Theorem horizontal_motion_decoupled c1 c2 s1 s2 o1 o2 :
  width c1 = width c2 -> friction s1 = friction s2 ->
  x o1 = x o2 -> vx o1 = vx o2 -> size o1 = size o2 ->
  x (updateObject (Some c1) s1 o1) = x (updateObject (Some c2) s2 o2)
  /\ vx (updateObject (Some c1) s1 o1) = vx (updateObject (Some c2) s2 o2).
Proof.
  intros Hw Hf Hx Hv Hs.
  destruct (updateObject_x_axis c1 s1 o1) as [V1 X1].
  destruct (updateObject_x_axis c2 s2 o2) as [V2 X2].
  destruct (moved_x_axis s1 o1) as [A1 B1].
  destruct (moved_x_axis s2 o2) as [A2 B2].
  pose proof (moved_size s1 o1) as S1. pose proof (moved_size s2 o2) as S2.
  unfold touchesX in *.
  set (m1 := moved s1 o1) in *. set (m2 := moved s2 o2) in *.
  set (u1 := updateObject (Some c1) s1 o1) in *.
  set (u2 := updateObject (Some c2) s2 o2) in *.
  clearbody m1 m2 u1 u2.
  assert (Ev : vx m1 = vx m2) by (rewrite A1, A2, Hf, Hv; reflexivity).
  assert (Ex : x m1 = x m2) by (rewrite B1, B2, Ev, Hx; reflexivity).
  rewrite X1, X2, V1, V2, S1, S2, Ev, Ex, Hw, Hs. split; reflexivity.
Qed.

Lemma moved_y_axis s o :
  vy (moved s o)
  = (let v := if gravity s then vy o + lit 0.3 else vy o in
     if friction s >? lit 0 then v * (lit 1 - friction s) else v)
  /\ y (moved s o) = y o + vy (moved s o).
Proof.
  unfold moved, integrate, applyFriction, applyGravity.
  destruct (gravity s), (friction s >? lit 0); split; reflexivity.
Qed.

(** A frame that meets no wall leaves the object where the integration
    put it. *)
Lemma updateObject_no_contact_fields canvas s o :
  wallContact canvas s o = false ->
  x (updateObject canvas s o) = x (moved s o)
  /\ y (updateObject canvas s o) = y (moved s o)
  /\ vx (updateObject canvas s o) = vx (moved s o)
  /\ vy (updateObject canvas s o) = vy (moved s o).
Proof.
  intros H. rewrite (updateObject_no_contact _ _ _ H). repeat split.
Qed.

End StepperFrame.

(* ================================================================== *)
(** ** The component as a whole, for every arithmetic *)

Section Component.

Context {N : Number}.
Local Open Scope js_scope.

Implicit Types (o : GameObject) (s : GameState) (c : Canvas) (w : World)
         (e : Event).

(** Induction over the events that lead to a reachable world. *)
Lemma Reachable_ind (P : World -> Prop) :
  P initialWorld ->
  (forall w e, Reachable w -> P w -> P (step w e)) ->
  forall w, Reachable w -> P w.
Proof.
  intros H0 Hs w [es <-]. unfold run. rewrite <- fold_left_rev_right.
  assert (R : forall l, Reachable (fold_right (fun y x => step x y) initialWorld l)).
  { intros l. exists (rev l). unfold run.
    now rewrite <- fold_left_rev_right, rev_involutive. }
  induction (rev es) as [|e l IH]; cbn; [exact H0|].
  apply Hs; [apply R|exact IH].
Qed.

Lemma track_identity es o :
  size (track es o) = size o /\ mass (track es o) = mass o
  /\ id (track es o) = id o /\ color (track es o) = color o.
Proof.
  revert o. induction es as [|e es IH]; intros o; cbn [track]; [repeat split|].
  destruct (IH (updateObject (fst e) (snd e) o)) as (S & M & I & C).
  destruct (updateObject_identity (fst e) (snd e) o) as (I' & C' & M' & S').
  rewrite S, M, I, C, S', M', I', C'. repeat split.
Qed.

Lemma Reachable_size w o :
  Reachable w -> In o (objects (current w)) -> size o = lit 20.
Proof.
  intros Hw Ho. pose proof (Reachable_launched Hw) as Hl.
  rewrite Forall_forall in Hl.
  destruct (Hl o Ho) as (rnd & x0 & y0 & vx0 & vy0 & es & ->).
  now rewrite (proj1 (track_identity es (createObject rnd x0 y0 vx0 vy0))).
Qed.

(** X3: every object of a reachable state has the size 20 and the mass 1
    it was created with. *)
Theorem reachable_objects_size_mass w o :
  Reachable w -> In o (objects (current w)) ->
  size o = lit 20 /\ mass o = lit 1.
Proof.
  intros Hw Ho. pose proof (Reachable_launched Hw) as Hl.
  rewrite Forall_forall in Hl.
  destruct (Hl o Ho) as (rnd & x0 & y0 & vx0 & vy0 & es & ->).
  destruct (track_identity es (createObject rnd x0 y0 vx0 vy0)) as (S & M & _).
  now rewrite S, M.
Qed.

Lemma flags_ok_step w e : flags_ok w -> flags_ok (step w e).
Proof.
  unfold flags_ok. intros (P & L & L' & O & C).
  destruct e as [c| | |p|p|rnd| | |v|b]; cbn [step].
  - cbn. intuition (try discriminate; try congruence; auto).
  - cbn. intuition.
  - destruct (isPlaying (rendered w)) eqn:E; [|cbn; rewrite ?E; intuition (try discriminate; try congruence; auto)].
    cbn. rewrite E. destruct (objects (current w)); cbn; intuition (try discriminate; try congruence; auto).
  - unfold handleCanvasMouseDown. destruct (canvasRef w) eqn:E; cbn;
      rewrite ?E; intuition (try discriminate; try congruence; auto).
  - unfold handleCanvasMouseMove.
    destruct (negb _); [cbn; intuition|].
    destruct (canvasRef w) eqn:E; cbn; rewrite ?E; intuition.
  - unfold handleCanvasMouseUp.
    destruct (isLaunching (rendered w)) eqn:E; [|cbn; rewrite ?E; intuition (try discriminate; try congruence; auto)].
    destruct (launchStart (rendered w)); [|cbn; rewrite ?E; intuition (try discriminate; try congruence; auto)].
    destruct (currentMouse (rendered w)); [|cbn; rewrite ?E; intuition (try discriminate; try congruence; auto)].
    cbn. rewrite ?E. intuition (try discriminate; try congruence; auto).
  - cbn. intuition (try discriminate; try congruence; auto).
  - unfold nextLevel. destruct (nth_error _ _); cbn; intuition.
  - cbn. intuition.
  - cbn. intuition.
Qed.

Lemma Reachable_flags_ok w : Reachable w -> flags_ok w.
Proof.
  revert w. apply Reachable_ind.
  - unfold flags_ok. cbn. intuition discriminate.
  - intros w e _. apply flags_ok_step.
Qed.

(** X4: whenever a reachable state holds an object, the loop is playing and
    the canvas exists, so that after the next render every frame moves the
    objects, walls included. *)
Theorem launched_objects_are_animated w :
  Reachable w -> objects (current w) <> [] ->
  isPlaying (current w) = true
  /\ exists c,
      canvasRef w = Some c
      /\ current (run w [Render; Frame])
         = updatePhysics (Some c) (current w).
Proof.
  intros Hw Ho.
  pose proof (Reachable_flags_ok Hw) as F.
  destruct F as (_ & _ & _ & O & C).
  specialize (O Ho). split; [exact O|].
  destruct (canvasRef w) as [c|] eqn:E; [|now elim (C O)].
  exists c. split; [reflexivity|].
  cbn. rewrite O. cbn. now rewrite E.
Qed.

End Component.

Section Controls.

Context {N : Number}.
Local Open Scope js_scope.

Implicit Types (o : GameObject) (s : GameState) (c : Canvas) (w : World)
         (e : Event).

Lemma levels_ok_step w e : levels_ok w -> levels_ok (step w e).
Proof.
  unfold levels_ok. intros [A B].
  destruct e as [c| | |p|p|rnd| | |v|b]; cbn [step]; cbn; try lia.
  - destruct (isPlaying (rendered w)); cbn; lia.
  - unfold handleCanvasMouseDown. destruct (canvasRef w); cbn; lia.
  - unfold handleCanvasMouseMove.
    destruct (negb _); [cbn; lia|]. destruct (canvasRef w); cbn; lia.
  - unfold handleCanvasMouseUp.
    destruct (isLaunching (rendered w)); [|cbn; lia].
    destruct (launchStart (rendered w)); [|cbn; lia].
    destruct (currentMouse (rendered w)); cbn; lia.
  - unfold nextLevel. change (List.length LEVELS - 1)%nat with 3.
    destruct (nth_error _ _); cbn; lia.
Qed.

Lemma Reachable_levels_ok w : Reachable w -> levels_ok w.
Proof.
  revert w. apply Reachable_ind.
  - unfold levels_ok. cbn. lia.
  - intros w e _. apply levels_ok_step.
Qed.

(** X5: in every reachable state the level is at most 3, so that
    [LEVELS[gameState.level]] is a preset, and no event lowers the level or
    raises it by more than one. *)
Theorem level_stays_in_table w e :
  Reachable w ->
  level (current w) <= 3
  /\ (exists l, nth_error LEVELS (level (current w)) = Some l)
  /\ level (current w) <= level (current (step w e))
  /\ level (current (step w e)) <= level (current w) + 1.
Proof.
  intros Hw.
  pose proof (Reachable_levels_ok Hw) as [A B].
  pose proof (levels_ok_step e (conj A B)) as [A' B'].
  assert (L : level (current w) <= 3) by lia.
  split; [exact L|]. split.
  - destruct (level (current w)) as [|[|[|[|n]]]]; cbn;
      [eexists; reflexivity ..|lia].
  - destruct e as [c| | |p|p|rnd| | |v|b]; cbn [step]; cbn; try lia.
    + destruct (isPlaying (rendered w)); cbn; lia.
    + unfold handleCanvasMouseDown. destruct (canvasRef w); cbn; lia.
    + unfold handleCanvasMouseMove.
      destruct (negb _); [cbn; lia|]. destruct (canvasRef w); cbn; lia.
    + unfold handleCanvasMouseUp.
      destruct (isLaunching (rendered w)); [|cbn; lia].
      destruct (launchStart (rendered w)); [|cbn; lia].
      destruct (currentMouse (rendered w)); cbn; lia.
    + unfold nextLevel. change (List.length LEVELS - 1)%nat with 3.
      destruct (nth_error _ _); cbn; lia.
Qed.

Lemma untouched_step w e :
  isMouseDown e = false ->
  untouched (rendered w) /\ untouched (current w) ->
  untouched (rendered (step w e)) /\ untouched (current (step w e)).
Proof.
  unfold untouched. intros He [(Ro & Rl & Rp & Rs) (Co & Cl & Cp & Cs)].
  destruct e as [c| | |p|p|rnd| | |v|b]; cbn [step]; try discriminate He;
    cbn; try tauto.
  - rewrite Rp. cbn. tauto.
  - unfold handleCanvasMouseMove. rewrite Rl. cbn. tauto.
  - unfold handleCanvasMouseUp. rewrite Rl. cbn. tauto.
  - unfold nextLevel. destruct (nth_error _ _); cbn; tauto.
Qed.

(** X6: as long as the pointer was never pressed, no event launches an
    object, starts the loop or changes the score. *)
Theorem nothing_moves_before_a_press (es : list Event) :
  forallb (fun e => negb (isMouseDown e)) es = true ->
  let w := run initialWorld es in
  objects (current w) = [] /\ isPlaying (current w) = false
  /\ isLaunching (current w) = false /\ score (current w) = lit 0.
Proof.
  intros H. cbv zeta.
  assert (U : untouched (rendered (run initialWorld es))
              /\ untouched (current (run initialWorld es))).
  { unfold run. rewrite <- fold_left_rev_right.
    assert (H' : forallb (fun e => negb (isMouseDown e)) (rev es) = true).
    { rewrite forallb_forall in *. intros e He. apply H. now apply in_rev. }
    clear H. induction (rev es) as [|e l IH]; cbn [fold_right].
    - unfold untouched. cbn. tauto.
    - cbn [forallb] in H'. apply andb_true_iff in H' as [He Hl].
      apply untouched_step; [now apply negb_true_iff|now apply IH]. }
  destruct U as [_ (Co & Cl & Cp & Cs)]. tauto.
Qed.

(** X7: a release launches exactly when the render of the same state
    draws the launch vector: then one object is appended and the vector is
    gone from the new state; otherwise the state is left as it is. *)
Theorem release_launches_iff_vector_drawn rnd (gameState prev : GameState) :
  let s' := handleCanvasMouseUp rnd gameState prev in
  (drawsLaunchVector gameState = true ->
   List.length (objects s') = S (List.length (objects prev))
   /\ drawsLaunchVector s' = false)
  /\ (drawsLaunchVector gameState = false -> s' = prev).
Proof.
  cbv zeta. unfold drawsLaunchVector, handleCanvasMouseUp.
  destruct (isLaunching gameState), (launchStart gameState),
    (currentMouse gameState); cbn; split; intros H; try discriminate H;
    try reflexivity.
  rewrite length_app. cbn. split; [lia|reflexivity].
Qed.

(** X8: the number of objects changes with a release that launches, by
    one, and with a reset or a change of level, to zero, and with no other
    event. *)
Theorem object_count_by_event w e :
  List.length (objects (current (step w e)))
  = if isMouseUp e
    then (List.length (objects (current w))
          + (if drawsLaunchVector (rendered w) then 1 else 0))%nat
    else if clearsObjects e then 0
         else List.length (objects (current w)).
Proof.
  destruct e as [c| | |p|p|rnd| | |v|b]; cbn [step isMouseUp clearsObjects];
    try reflexivity.
  - destruct (isPlaying (rendered w)); [|reflexivity].
    cbn. now rewrite length_map.
  - unfold handleCanvasMouseDown. destruct (canvasRef w); reflexivity.
  - unfold handleCanvasMouseMove.
    destruct (negb _); [reflexivity|]. destruct (canvasRef w); reflexivity.
  - unfold drawsLaunchVector, handleCanvasMouseUp.
    destruct (isLaunching (rendered w)), (launchStart (rendered w)),
      (currentMouse (rendered w)); cbn; rewrite ?length_app; cbn; lia.
  - unfold nextLevel. change (List.length LEVELS - 1)%nat with 3.
    assert (H : Nat.min (level (rendered w) + 1) 3 <= 3) by lia.
    destruct (Nat.min (level (rendered w) + 1) 3) as [|[|[|[|n]]]];
      [reflexivity ..|lia].
Qed.

End Controls.

(* ================================================================== *)
(** ** The component in exact arithmetic *)

Section ExactComponent.

Local Open Scope Q_scope.

Implicit Types (o : QObject) (s : QState) (c : QCanvas) (w : @World Exact)
         (e : @Event Exact).

(** X9: in a reachable world whose canvas is at least 40 wide and high, a
    frame that runs leaves every object with its centre between 20 and the
    dimension minus 20 on both axes. *)
Theorem frame_keeps_objects_on_canvas w c o' :
  Reachable w -> canvasRef w = Some c -> isPlaying (rendered w) = true ->
  40 <= width c -> 40 <= height c ->
  In o' (objects (current (step w Frame))) ->
  (20 <= x o' /\ x o' <= width c - 20)
  /\ (20 <= y o' /\ y o' <= height c - 20).
Proof.
  intros Hw Hc Hp Wc Hc' Hin.
  cbn [step] in Hin. rewrite Hp, Hc in Hin. cbn [set_current current] in Hin.
  unfold updatePhysics, set_objects in Hin. cbn [objects] in Hin.
  apply in_map_iff in Hin as (o & <- & Ho).
  assert (S : size o = 20) by exact (Reachable_size o Hw Ho).
  pose proof (@updateObject_inside c (current w) o) as H.
  pose proof (updateObject_size (Some c) (current w) o) as U.
  set (u := updateObject (Some c) (current w) o) in *. clearbody u.
  unfold inside in H. rewrite U, S in H. apply H; Lqa.lra.
Qed.

Lemma score_step w e :
  0 <= score (current w) ->
  score (current w) <= score (current (step w e))
  /\ (isMouseUp e = false -> score (current (step w e)) = score (current w)).
Proof.
  intros H0.
  destruct e as [c| | |p|p|rnd| | |v|b]; cbn [step isMouseUp];
    try (split; [cbn; Lqa.lra|reflexivity]).
  - destruct (isPlaying (rendered w)); split; try reflexivity; cbn; Lqa.lra.
  - unfold handleCanvasMouseDown.
    destruct (canvasRef w); split; try reflexivity; cbn; Lqa.lra.
  - unfold handleCanvasMouseMove. destruct (negb _);
      [split; [cbn; Lqa.lra|reflexivity]|].
    destruct (canvasRef w); split; try reflexivity; cbn; Lqa.lra.
  - split; [|discriminate]. unfold handleCanvasMouseUp.
    destruct (isLaunching (rendered w)); [|cbn; Lqa.lra].
    destruct (launchStart (rendered w)) as [st|]; [|cbn; Lqa.lra].
    destruct (currentMouse (rendered w)) as [m|]; [|cbn; Lqa.lra].
    cbn [set_current current score add Exact].
    pose proof (Qabs_nonneg ((px m - px st)%js * lit 0.2)%js) as A.
    pose proof (Qabs_nonneg ((py m - py st)%js * lit 0.2)%js) as B.
    cbn [Math_abs Exact]. Lqa.lra.
  - unfold nextLevel.
    destruct (nth_error _ _); split; try reflexivity; cbn; Lqa.lra.
Qed.

(** X10: the score of a reachable state is never negative, no event lowers
    it, and only a release changes it; in particular a reset and a change
    of level keep it. *)
Theorem score_never_decreases w e :
  Reachable w ->
  0 <= score (current w)
  /\ score (current w) <= score (current (step w e))
  /\ (isMouseUp e = false -> score (current (step w e)) = score (current w)).
Proof.
  intros Hw.
  assert (H0 : 0 <= score (current w)).
  { revert w Hw. apply Reachable_ind.
    - cbn. Lqa.lra.
    - intros w e' _ H. destruct (@score_step w e' H) as [L _]. Lqa.lra. }
  split; [exact H0|]. now apply score_step.
Qed.

(** X11: a press and a release at the same point launch an object that
    stands still at that point and add nothing to the score. *)
Theorem click_launches_object_at_rest w c p rnd :
  canvasRef w = Some c ->
  let w' := run w [MouseDown p; Render; MouseUp rnd] in
  exists o,
    objects (current w') = objects (current w) ++ [o]
    /\ position o = p /\ (vx o == 0 /\ vy o == 0)
    /\ score (current w') == score (current w).
Proof.
  intros Hc. cbv zeta. cbn [run fold_left step].
  unfold handleCanvasMouseDown. rewrite Hc.
  cbn [set_current current rendered canvasRef].
  unfold handleCanvasMouseUp.
  cbn [isLaunching launchStart currentMouse objects score friction gravity
       level isPlaying].
  eexists. split; [reflexivity|].
  destruct p as [a b]. cbn [position createObject x y vx vy px py].
  cbn [add sub mul lit Math_abs Exact].
  assert (Za : (a - a) * 0.2 == 0) by ring.
  assert (Zb : (b - b) * 0.2 == 0) by ring.
  split; [reflexivity|]. split; [split; assumption|].
  rewrite Za, Zb. cbn [Qabs Qnum Z.abs]. ring.
Qed.

End ExactComponent.

(* ================================================================== *)
(** ** Trajectories in exact arithmetic *)

Section Trajectories.

Local Open Scope Q_scope.

Implicit Types (o : QObject) (s : QState) (c : QCanvas).

(** *** Velocities under friction, walls included *)

Lemma moved_vx_abs s o :
  0 <= friction s -> friction s <= 1 ->
  Qabs (vx (moved s o)) == Qabs (vx o) * (1 - friction s).
Proof.
  intros F0 F1. destruct (moved_x_axis s o) as [E _]. rewrite E.
  destruct (friction s >? lit 0)%js eqn:C.
  - cbn [mul sub lit Exact]. rewrite Qabs_Qmult.
    rewrite (Qabs_pos (1 - friction s)) by Lqa.lra. reflexivity.
  - apply Qltb_false in C. cbn [lit Exact] in C.
    assert (Z : friction s == 0) by Lqa.lra. rewrite Z. ring.
Qed.

Lemma moved_vy_abs s o :
  0 <= friction s -> friction s <= 1 -> gravity s = false ->
  Qabs (vy (moved s o)) == Qabs (vy o) * (1 - friction s).
Proof.
  intros F0 F1 G. destruct (moved_y_axis s o) as [E _]. rewrite E, G.
  cbv zeta. destruct (friction s >? lit 0)%js eqn:C.
  - cbn [mul sub lit Exact]. rewrite Qabs_Qmult.
    rewrite (Qabs_pos (1 - friction s)) by Lqa.lra. reflexivity.
  - apply Qltb_false in C. cbn [lit Exact] in C.
    assert (Z : friction s == 0) by Lqa.lra. rewrite Z. ring.
Qed.

Lemma bounce_abs (b : bool) (v : Q) :
  Qabs (if b then @mul Exact v (@neg Exact (@lit Exact 0.8)) else v)
  <= Qabs v.
Proof.
  destruct b; [|Lqa.lra].
  cbn [mul neg lit Exact]. rewrite Qabs_Qmult.
  change (Qabs (- (0.8))) with 0.8.
  pose proof (Qabs_nonneg v). Lqa.lra.
Qed.

Lemma updateObject_velocity_le_moved canvas s o :
  Qabs (vx (updateObject canvas s o)) <= Qabs (vx (moved s o))
  /\ Qabs (vy (updateObject canvas s o)) <= Qabs (vy (moved s o)).
Proof.
  destruct canvas as [c|].
  - destruct (updateObject_x_axis c s o) as [Ex _].
    destruct (updateObject_y_axis c s o) as [Ey _].
    rewrite Ex, Ey. split; apply bounce_abs.
  - rewrite updateObject_no_canvas.
    change (vx (appendTrail (moved s o))) with (vx (moved s o)).
    change (vy (appendTrail (moved s o))) with (vy (moved s o)).
    split; Lqa.lra.
Qed.

Lemma frames_speed_bound canvas s o n :
  0 <= friction s -> friction s <= 1 ->
  let o' := frames canvas s n o in
  let r := (1 - friction s) ^ Z.of_nat n in
  Qabs (vx o') <= Qabs (vx o) * r
  /\ (gravity s = false -> Qabs (vy o') <= Qabs (vy o) * r).
Proof.
  intros F0 F1. cbv zeta. revert o. induction n as [|n IH]; intros o.
  - change (frames canvas s 0 o) with o. cbn [Z.of_nat Qpower].
    split; [|intros _]; Lqa.lra.
  - rewrite frames_S, Qpower_succ.
    destruct (IH (updateObject canvas s o)) as [Hx Hy].
    destruct (updateObject_velocity_le_moved canvas s o) as [Bx By].
    pose proof (@moved_vx_abs s o F0 F1) as Mx.
    pose proof (@moved_vy_abs s o F0 F1) as My.
    assert (R : 0 <= (1 - friction s) ^ Z.of_nat n)
      by (apply Qpower_0_le; Lqa.lra).
    set (u := updateObject canvas s o) in *. set (m := moved s o) in *.
    clearbody u m.
    set (r := (1 - friction s) ^ Z.of_nat n) in *. clearbody r.
    split.
    + eapply Qle_trans; [exact Hx|].
      setoid_replace (Qabs (vx o) * ((1 - friction s) * r))
        with (Qabs (vx o) * (1 - friction s) * r) by ring.
      apply Qmult_le_compat_r; [|exact R]. Lqa.lra.
    + intros G. specialize (Hy G). specialize (My G).
      eapply Qle_trans; [exact Hy|].
      setoid_replace (Qabs (vy o) * ((1 - friction s) * r))
        with (Qabs (vy o) * (1 - friction s) * r) by ring.
      apply Qmult_le_compat_r; [|exact R]. Lqa.lra.
Qed.

(** *** Coming to rest *)

Lemma Qpower_bernoulli (f : Q) (n : nat) :
  0 <= f -> f <= 1 ->
  (1 - f) ^ Z.of_nat n * (1 + inject_Z (Z.of_nat n) * f) <= 1.
Proof.
  intros F0 F1. induction n as [|n IH].
  - cbn [Z.of_nat Qpower]. unfold inject_Z. Lqa.lra.
  - rewrite Qpower_succ, Nat2Z.inj_succ. unfold Z.succ.
    rewrite inject_Z_plus.
    assert (P : 0 <= (1 - f) ^ Z.of_nat n) by (apply Qpower_0_le; Lqa.lra).
    assert (K : 0 <= inject_Z (Z.of_nat n)).
    { change 0 with (inject_Z 0). rewrite <- Zle_Qle. lia. }
    set (p := (1 - f) ^ Z.of_nat n) in *. set (k := inject_Z (Z.of_nat n)) in *.
    clearbody p k. change (inject_Z 1) with 1.
    assert (E : (1 - f) * p * (1 + (k + 1) * f)
                == p * (1 + k * f) - p * (f * f * (1 + k))) by ring.
    rewrite E.
    assert (Z : 0 <= p * (f * f * (1 + k))).
    { apply Qmult_le_0_compat; [exact P|].
      apply Qmult_le_0_compat; [|Lqa.lra].
      apply Qmult_le_0_compat; exact F0. }
    Lqa.lra.
Qed.

Lemma drawsVelocity_false o :
  Qabs (vx o) <= 0.1 -> Qabs (vy o) <= 0.1 -> drawsVelocity o = false.
Proof.
  intros Hx Hy. unfold drawsVelocity. apply orb_false_iff.
  split; apply Qltb_false; assumption.
Qed.

(** X13: with a friction [0 < f <= 1] and gravity off the velocity vector
    of every object disappears from the screen for good, at the latest
    after [10 (|vx| + |vy|) / f] frames, rounded up. *)
Theorem friction_hides_velocity_vector canvas s o n :
  0 < friction s -> friction s <= 1 -> gravity s = false ->
  let n0 := Z.to_nat (Qceiling (10 * (Qabs (vx o) + Qabs (vy o)) / friction s)) in
  (n0 <= n)%nat ->
  drawsVelocity (frames canvas s n o) = false.
Proof.
  intros F0 F1 G n0 Hn.
  destruct (@frames_speed_bound canvas s o n) as [Bx By]; try Lqa.lra.
  specialize (By G).
  pose proof (@Qpower_bernoulli (friction s) n) as B.
  assert (P : 0 <= (1 - friction s) ^ Z.of_nat n)
    by (apply Qpower_0_le; Lqa.lra).
  pose proof (Qabs_nonneg (vx o)) as Ax. pose proof (Qabs_nonneg (vy o)) as Ay.
  assert (K : 10 * (Qabs (vx o) + Qabs (vy o))
              <= inject_Z (Z.of_nat n) * friction s).
  { set (q := 10 * (Qabs (vx o) + Qabs (vy o)) / friction s) in *.
    assert (Q1 : q <= inject_Z (Z.of_nat n)).
    { eapply Qle_trans; [apply Qle_ceiling|].
      rewrite <- Zle_Qle. unfold n0 in Hn. lia. }
    assert (Q2 : 10 * (Qabs (vx o) + Qabs (vy o)) == q * friction s).
    { unfold q. field. Lqa.lra. }
    rewrite Q2. apply Qmult_le_compat_r; Lqa.lra. }
  set (u := frames canvas s n o) in *. clearbody u.
  set (t := (1 - friction s) ^ Z.of_nat n) in *. clearbody t.
  set (k := inject_Z (Z.of_nat n) * friction s) in *. clearbody k.
  set (a := Qabs (vx o)) in *. set (b := Qabs (vy o)) in *. clearbody a b.
  specialize (B ltac:(Lqa.lra) F1).
  assert (Ta : 10 * a * t <= (1 + k) * t)
    by (apply Qmult_le_compat_r; Lqa.lra).
  assert (Tb : 10 * b * t <= (1 + k) * t)
    by (apply Qmult_le_compat_r; Lqa.lra).
  apply drawsVelocity_false; Lqa.lra.
Qed.

End Trajectories.

Section Laws.

Local Open Scope Q_scope.

Implicit Types (o : QObject) (s : QState) (c : QCanvas).

(** *** Rest *)

Lemma clamp_id (lo hi v : Q) :
  lo <= v -> v <= hi -> clamp (N:=Exact) lo hi v == v.
Proof.
  intros H1 H2. unfold clamp. cbn. unfold Qmax, Qmin.
  destruct (Qle_bool hi v) eqn:E1;
    match goal with
    | |- context [Qle_bool lo ?a] => destruct (Qle_bool lo a) eqn:E2
    end;
    try apply Qle_bool_iff in E1; try apply Qle_bool_false in E1;
    try apply Qle_bool_iff in E2; try apply Qle_bool_false in E2;
    Lqa.lra.
Qed.

Lemma updateObject_at_rest c s o :
  gravity s = false -> vx o == 0 -> vy o == 0 -> inside c o ->
  let o' := updateObject (Some c) s o in
  (vx o' == 0 /\ vy o' == 0) /\ (x o' == x o /\ y o' == y o)
  /\ size o' = size o.
Proof.
  intros G Vx Vy [[X1 X2] [Y1 Y2]] o'.
  destruct (updateObject_x_axis c s o) as [Ex Px].
  destruct (updateObject_y_axis c s o) as [Ey Py].
  destruct (moved_x_axis s o) as [Mx Nx].
  destruct (moved_y_axis s o) as [My Ny].
  pose proof (moved_size s o) as Ms.
  pose proof (updateObject_size (Some c) s o) as Us.
  rewrite G in My. cbv zeta in My.
  fold o' in Ex, Px, Ey, Py, Us.
  set (m := moved s o) in *. clearbody m o'.
  rewrite Ms in Px, Py.
  assert (Zx : vx m == 0).
  { rewrite Mx. destruct (friction s >? lit 0)%js; [|exact Vx].
    cbn [mul sub lit Exact]. rewrite Vx. ring. }
  assert (Zy : vy m == 0).
  { rewrite My. destruct (friction s >? lit 0)%js; [|exact Vy].
    cbn [mul sub lit Exact]. rewrite Vy. ring. }
  assert (Qx : x m == x o).
  { rewrite Nx. cbn [add Exact]. rewrite Zx. ring. }
  assert (Qy : y m == y o).
  { rewrite Ny. cbn [add Exact]. rewrite Zy. ring. }
  split; [|split; [|exact Us]].
  - rewrite Ex, Ey. split.
    + destruct (touchesX c m); [|exact Zx].
      cbn [mul neg lit Exact]. rewrite Zx. ring.
    + destruct (touchesY c m); [|exact Zy].
      cbn [mul neg lit Exact]. rewrite Zy. ring.
  - rewrite Px, Py. split.
    + destruct (touchesX c m); [|exact Qx].
      rewrite clamp_id; [exact Qx| |]; cbn [sub Exact]; Lqa.lra.
    + destruct (touchesY c m); [|exact Qy].
      rewrite clamp_id; [exact Qy| |]; cbn [sub Exact]; Lqa.lra.
Qed.

(** X14: without gravity an object that stands still inside the canvas
    stays where it is, at rest, for any number of frames and any
    friction. *)
Theorem object_at_rest_stays_at_rest c s o n :
  gravity s = false -> vx o == 0 -> vy o == 0 -> inside c o ->
  let o' := frames (Some c) s n o in
  (vx o' == 0 /\ vy o' == 0) /\ (x o' == x o /\ y o' == y o).
Proof.
  intros G. cbv zeta. revert o. induction n as [|n IH]; intros o Vx Vy I.
  - change (frames (Some c) s 0 o) with o. repeat split; Lqa.lra.
  - rewrite frames_S.
    destruct (@updateObject_at_rest c s o G Vx Vy I)
      as ((Ux & Uy) & (Px & Py) & S).
    set (u := updateObject (Some c) s o) in *. clearbody u.
    assert (Iu : inside c u).
    { destruct I as [[X1 X2] [Y1 Y2]]. unfold inside. rewrite S. Lqa.lra. }
    destruct (IH u Ux Uy Iu) as ((Hx & Hy) & (Qx & Qy)).
    repeat split; Lqa.lra.
Qed.

End Laws.

(* ================================================================== *)
(** ** Gestures and what is drawn, for every arithmetic *)

Section Gestures.

Context {N : Number}.
Local Open Scope js_scope.

Implicit Types (o : GameObject) (s : GameState) (c : Canvas) (w : World)
         (p q : Point).

Lemma last_cons {A : Type} (a d : A) (l : list A) :
  last (a :: l) d = last l a.
Proof.
  revert a d. induction l as [|b l IH]; intros a d; [reflexivity|].
  change (last (a :: b :: l) d) with (last (b :: l) d).
  now rewrite !IH.
Qed.

Lemma last_map_Some {A : Type} (d : A) (l : list A) :
  last (map Some l) (Some d) = Some (last l d).
Proof.
  revert d. induction l as [|a l IH]; intros d; [reflexivity|].
  cbn [map]. now rewrite !last_cons, IH.
Qed.

(** Pointer moves during a gesture only replace the recorded pointer. *)
Lemma run_moves w c (ms : list Point) :
  canvasRef w = Some c -> isLaunching (rendered w) = true ->
  let w' := run w (map MouseMove ms) in
  rendered w' = rendered w /\ canvasRef w' = canvasRef w
  /\ current w'
     = mkState (objects (current w)) (friction (current w))
               (gravity (current w)) (isLaunching (current w))
               (launchStart (current w))
               (last (map Some ms) (currentMouse (current w)))
               (level (current w)) (score (current w))
               (isPlaying (current w)).
Proof.
  cbv zeta. revert w. induction ms as [|q ms IH]; intros w Hc Hl.
  - cbn. repeat split. now destruct (current w).
  - cbn [map run fold_left].
    assert (S : step w (MouseMove q)
                = mkWorld (rendered w)
                    (mkState (objects (current w)) (friction (current w))
                             (gravity (current w)) (isLaunching (current w))
                             (launchStart (current w)) (Some q)
                             (level (current w)) (score (current w))
                             (isPlaying (current w)))
                    (canvasRef w)).
    { cbn [step]. unfold handleCanvasMouseMove, set_current.
      rewrite Hl, Hc. reflexivity. }
    rewrite S. clear S.
    match goal with |- context [fold_left step _ ?v] => set (w1 := v) end.
    destruct (IH w1 Hc Hl) as (R & C & K). unfold run in R, C, K.
    rewrite R, C, K, last_cons. repeat split.
Qed.

(** X18: a gesture launches from the point of the press with 0.2 times
    the vector from there to the last pointer position; the positions the
    pointer passed through in between have no influence, and without any
    move the vector is that of the press to itself. *)
Theorem gesture_depends_on_press_and_last_move w c p (ms : list Point) rnd :
  canvasRef w = Some c ->
  let q := last ms p in
  let vx0 := (px q - px p) * lit 0.2 in
  let vy0 := (py q - py p) * lit 0.2 in
  let w' := run w (MouseDown p :: Render :: map MouseMove ms
                   ++ [Render; MouseUp rnd]) in
  objects (current w')
  = objects (current w) ++ [createObject rnd (px p) (py p) vx0 vy0]
  /\ score (current w') = score (current w) + Math_abs vx0 + Math_abs vy0
  /\ drawsLaunchVector (current w') = false.
Proof.
  intros Hc. cbv zeta.
  cbn [run fold_left]. rewrite fold_left_app.
  set (w1 := step (step w (MouseDown p)) Render).
  assert (E1 : w1 = mkWorld
                      (mkState (objects (current w)) (friction (current w))
                               (gravity (current w)) true (Some p) (Some p)
                               (level (current w)) (score (current w)) true)
                      (mkState (objects (current w)) (friction (current w))
                               (gravity (current w)) true (Some p) (Some p)
                               (level (current w)) (score (current w)) true)
                      (Some c)).
  { unfold w1. cbn [step]. unfold handleCanvasMouseDown, set_current.
    rewrite Hc. reflexivity. }
  destruct (@run_moves w1 c ms) as (R & C & K);
    [rewrite E1; reflexivity ..|].
  unfold run in R, C, K.
  set (w2 := fold_left step (map MouseMove ms) w1) in *.
  cbn [fold_left step]. unfold handleCanvasMouseUp.
  cbn [rendered current set_current]. rewrite K, E1.
  cbn [rendered current objects friction gravity isLaunching launchStart
       currentMouse level score isPlaying].
  rewrite last_map_Some. repeat split.
Qed.

(** X19: the trail of a launched object is stroked from its second frame
    on. *)
Theorem trail_drawn_from_second_frame rnd x0 y0 vx0 vy0 (es : list Env) :
  drawsTrail (track es (createObject rnd x0 y0 vx0 vy0))
  = (1 <? List.length es)%nat.
Proof.
  unfold drawsTrail. rewrite track_trail by (cbn; lia).
  cbn [trail createObject app]. rewrite slice_last_length, recorded_length.
  destruct es as [|e1 [|e2 es]]; reflexivity.
Qed.

End Gestures.

(* ================================================================== *)
(** ** Edges: NaN and infinity in binary64 *)

Section Edges.

Implicit Types (a b : float).

Lemma is_nan_true a : PrimFloat.is_nan a = true -> Prim2SF a = S754_nan.
Proof.
  intros H. destruct (Prim2SF a) eqn:E; try reflexivity;
    assert (F : PrimFloat.is_nan a = false)
      by (apply is_nan_false; rewrite E; discriminate);
    congruence.
Qed.

Lemma leb_nan_l a b : PrimFloat.is_nan a = true -> PrimFloat.leb a b = false.
Proof.
  intros H. rewrite FloatAxioms.leb_spec, (is_nan_true _ H). reflexivity.
Qed.

Lemma leb_nan_r a b : PrimFloat.is_nan b = true -> PrimFloat.leb a b = false.
Proof.
  intros H. rewrite FloatAxioms.leb_spec, (is_nan_true _ H).
  unfold SFleb. now destruct (Prim2SF a).
Qed.

(** X20: in binary64 the wall check lets a NaN through: when the
    integration yields NaN on the x axis, the frame neither bounces nor
    clamps on that axis, and the position stays NaN. *)
Theorem nan_position_passes_walls (c : FCanvas) (s : FState) (o : FObject) :
  PrimFloat.is_nan (x (moved s o)) = true ->
  let o' := updateObject (Some c) s o in
  x o' = x (moved s o) /\ vx o' = vx (moved s o)
  /\ PrimFloat.is_nan (x o') = true.
Proof.
  intros H o'.
  destruct (updateObject_x_axis c s o) as [Ev Ex]. fold o' in Ev, Ex.
  assert (T : touchesX c (moved s o) = false).
  { unfold touchesX. cbn [leb Binary64].
    now rewrite (@leb_nan_l _ _ H), (@leb_nan_r _ _ H). }
  rewrite T in Ev, Ex. rewrite Ex, Ev. repeat split. exact H.
Qed.

(** X22: in binary64 a frame on a canvas at least two radii wide and high
    leaves the object inside on every axis on which the integration yields
    a number; a position that overflowed to infinity is clamped like any
    other. *)
Theorem binary64_frame_keeps_numbers_inside (c : FCanvas) (s : FState)
        (o : FObject) :
  PrimFloat.leb (size o) (width c - size o)%js = true ->
  PrimFloat.leb (size o) (height c - size o)%js = true ->
  let m := moved s o in
  let o' := updateObject (Some c) s o in
  (PrimFloat.is_nan (x m) = false ->
   PrimFloat.leb (size o) (x o') = true
   /\ PrimFloat.leb (x o') (width c - size o)%js = true)
  /\ (PrimFloat.is_nan (y m) = false ->
      PrimFloat.leb (size o) (y o') = true
      /\ PrimFloat.leb (y o') (height c - size o)%js = true).
Proof. apply updateObject_inside_binary64. Qed.

End Edges.

(* ================================================================== *)
(** ** These theorems at concrete inputs *)

Section MoreInstances.

Local Open Scope Q_scope.

(** Two objects with the same horizontal state, one under gravity. *)
Lemma horizontal_motion_decoupled_witness :
  let o2 := createObject (N:=Exact) someRandom 100 50 20 7 in
  x (updateObject (Some (@stage Exact)) initialState midObject)
  = x (updateObject (Some (@stage Exact)) gravityState o2)
  /\ vx (updateObject (Some (@stage Exact)) initialState midObject)
     = vx (updateObject (Some (@stage Exact)) gravityState o2).
Proof.
  cbv zeta.
  exact (@horizontal_motion_decoupled
           Exact stage stage initialState gravityState midObject
           (createObject (N:=Exact) someRandom 100 50 20 7)
           eq_refl eq_refl eq_refl eq_refl eq_refl).
Defined.

Lemma reachable_objects_size_mass_witness :
  let o := hd midObject (objects (current draggedWorld)) in
  Reachable draggedWorld
  /\ In o (objects (current draggedWorld))
  /\ size o = 20 /\ mass o = 1.
Proof.
  cbv zeta.
  assert (R : Reachable draggedWorld)
    by (exists dragTrace; reflexivity).
  assert (I : In (hd midObject (objects (current draggedWorld)))
                 (objects (current draggedWorld)))
    by (vm_compute; left; reflexivity).
  split; [exact R|split; [exact I|]].
  exact (@reachable_objects_size_mass Exact _ _ R I).
Defined.

Lemma launched_objects_are_animated_witness :
  Reachable draggedWorld
  /\ objects (current draggedWorld) <> []
  /\ isPlaying (current draggedWorld) = true.
Proof.
  assert (R : Reachable draggedWorld)
    by (exists dragTrace; reflexivity).
  assert (O : objects (current draggedWorld) <> [])
    by (vm_compute; discriminate).
  split; [exact R|split; [exact O|]].
  exact (proj1 (@launched_objects_are_animated Exact _ R O)).
Defined.

Lemma level_stays_in_table_witness :
  Reachable cornerWorld
  /\ (level (current cornerWorld) <= 3)%nat
  /\ (level (current cornerWorld)
      <= level (current (step cornerWorld NextLevel)))%nat.
Proof.
  assert (R : Reachable cornerWorld)
    by (exists cornerTrace; reflexivity).
  split; [exact R|].
  destruct (@level_stays_in_table Exact cornerWorld NextLevel R)
    as (A & _ & B & _).
  split; [exact A|exact B].
Defined.

Lemma nothing_moves_before_a_press_witness :
  forallb (fun e => negb (isMouseDown e)) (@idleTrace Exact) = true
  /\ objects (current (run (@initialWorld Exact) idleTrace)) = []
  /\ isPlaying (current (run (@initialWorld Exact) idleTrace)) = false.
Proof.
  assert (H : forallb (fun e => negb (isMouseDown e)) (@idleTrace Exact) = true)
    by reflexivity.
  split; [exact H|].
  destruct (@nothing_moves_before_a_press Exact idleTrace H) as (A & B & _).
  split; [exact A|exact B].
Defined.

Lemma release_launches_iff_vector_drawn_witness :
  drawsLaunchVector (@dragging Exact) = true
  /\ List.length (objects (handleCanvasMouseUp someRandom (@dragging Exact)
                                               dragging))
     = 1%nat.
Proof.
  split; [reflexivity|].
  exact (proj1 (proj1 (@release_launches_iff_vector_drawn
                         Exact someRandom dragging dragging) eq_refl)).
Defined.

Lemma frame_keeps_objects_on_canvas_witness :
  let o' := hd midObject (objects (current (step cornerWorld Frame))) in
  Reachable cornerWorld
  /\ In o' (objects (current (step cornerWorld Frame)))
  /\ (20 <= x o' /\ x o' <= width (@stage Exact) - 20)
  /\ (20 <= y o' /\ y o' <= height (@stage Exact) - 20).
Proof.
  cbv zeta.
  assert (R : Reachable cornerWorld)
    by (exists cornerTrace; reflexivity).
  assert (I : In (hd midObject
                     (objects (current (step cornerWorld Frame))))
                 (objects (current (step cornerWorld Frame))))
    by (vm_compute; left; reflexivity).
  split; [exact R|split; [exact I|]].
  apply (@frame_keeps_objects_on_canvas cornerWorld stage _ R);
    [reflexivity|reflexivity|qdecide|qdecide|exact I].
Defined.

Lemma score_never_decreases_witness :
  Reachable draggedWorld
  /\ 0 <= score (current draggedWorld)
  /\ score (current draggedWorld)
     <= score (current (step draggedWorld ResetLab)).
Proof.
  assert (R : Reachable draggedWorld)
    by (exists dragTrace; reflexivity).
  split; [exact R|].
  destruct (@score_never_decreases draggedWorld ResetLab R) as (A & B & _).
  split; [exact A|exact B].
Defined.

Lemma click_launches_object_at_rest_witness :
  canvasRef mountedWorld = Some stage
  /\ exists o,
      objects (current (run mountedWorld
                            [MouseDown (mkPoint (N:=Exact) 100 300); Render;
                             MouseUp someRandom]))
      = objects (current mountedWorld) ++ [o]
      /\ position o = mkPoint (N:=Exact) 100 300
      /\ (vx o == 0 /\ vy o == 0)
      /\ score (current (run mountedWorld
                             [MouseDown (mkPoint (N:=Exact) 100 300); Render;
                              MouseUp someRandom]))
         == score (current mountedWorld).
Proof.
  split; [reflexivity|].
  exact (@click_launches_object_at_rest
           mountedWorld stage (mkPoint (N:=Exact) 100 300) someRandom eq_refl).
Defined.

Lemma friction_hides_velocity_vector_witness :
  (0 < friction (@airState Exact) /\ friction (@airState Exact) <= 1)
  /\ (Z.to_nat (Qceiling (10 * (Qabs (vx (@slowObject Exact))
                                + Qabs (vy (@slowObject Exact)))
                          / friction (@airState Exact))) <= 250)%nat
  /\ drawsVelocity (frames (Some (@stage Exact)) airState 250 slowObject)
     = false.
Proof.
  assert (F0 : 0 < friction (@airState Exact)) by qdecide.
  assert (F1 : friction (@airState Exact) <= 1) by qdecide.
  assert (K : (Z.to_nat (Qceiling (10 * (Qabs (vx (@slowObject Exact))
                                         + Qabs (vy (@slowObject Exact)))
                                   / friction (@airState Exact))) <= 250)%nat)
    by (vm_compute; lia).
  split; [split; assumption|split; [exact K|]].
  exact (@friction_hides_velocity_vector
           (Some stage) airState slowObject 250 F0 F1 eq_refl K).
Defined.

Lemma object_at_rest_stays_at_rest_witness :
  inside stage (@restingObject Exact)
  /\ (vx (frames (Some (@stage Exact)) airState 5 restingObject) == 0
      /\ vy (frames (Some (@stage Exact)) airState 5 restingObject) == 0)
  /\ (x (frames (Some (@stage Exact)) airState 5 restingObject)
      == x (@restingObject Exact)
      /\ y (frames (Some (@stage Exact)) airState 5 restingObject)
         == y (@restingObject Exact)).
Proof.
  assert (I : inside stage (@restingObject Exact))
    by (repeat split; qdecide).
  split; [exact I|].
  exact (@object_at_rest_stays_at_rest
           stage airState restingObject 5 eq_refl (Qeq_refl 0) (Qeq_refl 0) I).
Defined.

Lemma gesture_depends_on_press_and_last_move_witness :
  canvasRef mountedWorld = Some stage
  /\ objects (current
       (run mountedWorld
            (MouseDown (mkPoint (N:=Exact) 100 300) :: Render
             :: map MouseMove [mkPoint (N:=Exact) 150 310;
                               mkPoint (N:=Exact) 200 300]
             ++ [Render; MouseUp someRandom])))
     = objects (current mountedWorld)
       ++ [createObject (N:=Exact) someRandom 100 300
                        ((200 - 100) * 0.2) ((300 - 300) * 0.2)].
Proof.
  split; [reflexivity|].
  exact (proj1 (@gesture_depends_on_press_and_last_move
                  Exact mountedWorld stage (mkPoint (N:=Exact) 100 300)
                  [mkPoint (N:=Exact) 150 310; mkPoint (N:=Exact) 200 300]
                  someRandom eq_refl)).
Defined.

Lemma nan_position_passes_walls_witness :
  PrimFloat.is_nan (x (moved initialState nanObject)) = true
  /\ PrimFloat.is_nan
       (x (updateObject (Some (@stage Binary64)) initialState nanObject))
     = true.
Proof.
  assert (H : PrimFloat.is_nan (x (moved initialState nanObject)) = true)
    by (vm_compute; reflexivity).
  split; [exact H|].
  exact (proj2 (proj2 (@nan_position_passes_walls
                         stage initialState nanObject H))).
Defined.

(** An infinite velocity: the position overflows and is clamped. *)
Lemma binary64_frame_keeps_numbers_inside_witness :
  PrimFloat.is_nan (x (moved initialState infiniteObject)) = false
  /\ PrimFloat.leb (size infiniteObject)
       (x (updateObject (Some (@stage Binary64)) initialState infiniteObject))
     = true
  /\ PrimFloat.leb
       (x (updateObject (Some (@stage Binary64)) initialState infiniteObject))
       (width (@stage Binary64) - size infiniteObject)%float
     = true.
Proof.
  assert (H : PrimFloat.is_nan (x (moved initialState infiniteObject)) = false)
    by (vm_compute; reflexivity).
  assert (W : PrimFloat.leb (size infiniteObject)
                (width (@stage Binary64) - size infiniteObject)%float = true)
    by (vm_compute; reflexivity).
  assert (Hh : PrimFloat.leb (size infiniteObject)
                 (height (@stage Binary64) - size infiniteObject)%float = true)
    by (vm_compute; reflexivity).
  split; [exact H|].
  exact (proj1 (@binary64_frame_keeps_numbers_inside
                  stage initialState infiniteObject W Hh) H).
Defined.

End MoreInstances.
